(** * brick: the chat API routes (src/app/api/chat/**/route.ts)

    A shallow embedding of the three Next.js route modules

      - [src/app/api/chat/route.ts]            (POST = CreateChat,  GET = ListChats)
      - [src/app/api/chat/messages/route.ts]   (POST = CreateMessage, GET = ListMessages)
      - [src/app/api/chat/aiResponse/route.ts] (POST = StartCompletion)

    together with the parts of [prisma/schema.prisma] they rely on.  The
    handlers are written in a small state-and-exception monad over a [World]
    that holds the Postgres tables, the Redis cache, the rate-limit windows,
    the detached completion tasks and the console. *)

From Stdlib Require Import Ascii String ZArith NArith List.
From stdpp Require Import base option strings list pretty sorting gmap.

Local Open Scope string_scope.
Local Open Scope Z_scope.

(* ===================================================================== *)
(** * JSON documents, [JSON.stringify] and [JSON.parse] *)
(* ===================================================================== *)

Module JSON.

(** A JSON value.  Numbers are the integers (the only numbers these routes
    produce: limits, counters and epoch milliseconds); strings are byte
    strings (UTF-8); an object is the list of its properties in order (a JS
    object has each key once). *)
#[warnings="-register-all"]
Inductive json : Type :=
| JNull
| JBool (b : bool)
| JNum (n : Z)
| JStr (s : string)
| JArr (l : list json)
| JObj (l : list (string * json)).

(** Induction principle that reaches below the nested lists. *)
Section json_ind_nested.
Variable P : json → Prop.
Hypothesis Hnull : P JNull.
Hypothesis Hbool : ∀ b, P (JBool b).
Hypothesis Hnum : ∀ n, P (JNum n).
Hypothesis Hstr : ∀ s, P (JStr s).
Hypothesis Harr : ∀ l, Forall P l → P (JArr l).
Hypothesis Hobj : ∀ l, Forall (λ kv, P (snd kv)) l → P (JObj l).

Fixpoint json_ind_nested (v : json) : P v :=
    match v with
    | JNull => Hnull
    | JBool b => Hbool b
    | JNum n => Hnum n
    | JStr s => Hstr s
    | JArr l =>
        Harr l ((fix go (l : list json) : Forall P l :=
                   match l with
                   | [] => @List.Forall_nil _ P
                   | x :: l' => @List.Forall_cons _ P x l' (json_ind_nested x) (go l')
                   end) l)
    | JObj l =>
        Hobj l ((fix go (l : list (string * json)) : Forall (λ kv, P (snd kv)) l :=
                   match l with
                   | [] => @List.Forall_nil _ (λ kv, P (snd kv))
                   | kv :: l' =>
                       @List.Forall_cons _ (λ kv, P (snd kv)) kv l'
                         (json_ind_nested (snd kv)) (go l')
                   end) l)
    end.
End json_ind_nested.

(** Nesting depth of a value. *)
Fixpoint depth (v : json) : nat :=
  match v with
  | JArr l => S (foldr (λ x n, Nat.max (depth x) n) 0%nat l)
  | JObj l => S (foldr (λ kv n, Nat.max (depth (snd kv)) n) 0%nat l)
  | _ => 0%nat
  end.

(** JS truthiness of a value, as tested by [if (cachedChats)]. *)
Definition truthy (v : json) : bool :=
  match v with
  | JNull => false
  | JBool b => b
  | JNum n => negb (n =? 0)
  | JStr s => negb (String.eqb s EmptyString)
  | JArr _ | JObj _ => true
  end.

(** Property access on a parsed object (first binding of the key). *)
Fixpoint assoc (k : string) (l : list (string * json)) : option json :=
  match l with
  | [] => None
  | (k', v) :: l' => if String.eqb k k' then Some v else assoc k l'
  end.

(** ** Characters *)

Definition dquote : ascii := "034"%char.
Definition backslash : ascii := "\"%char.

Definition is_digit (c : ascii) : bool :=
  let n := N_of_ascii c in ((48 <=? n) && (n <=? 57))%N.
Definition digit_val (c : ascii) : N := (N_of_ascii c - 48)%N.

Definition is_ws (c : ascii) : bool :=
  let n := N_of_ascii c in
  ((n =? 32) || (n =? 9) || (n =? 10) || (n =? 13))%N.

Definition hex_char (n : N) : ascii :=
  if (n <? 10)%N then ascii_of_N (48 + n) else ascii_of_N (87 + n).

Definition hex_val (c : ascii) : option N :=
  let n := N_of_ascii c in
  if ((48 <=? n) && (n <=? 57))%N then Some (n - 48)%N
  else if ((97 <=? n) && (n <=? 102))%N then Some (n - 87)%N
  else if ((65 <=? n) && (n <=? 70))%N then Some (n - 55)%N
  else None.

(** A character a value can start with: no white space, no closing bracket. *)
Definition value_start (c : ascii) : bool :=
  negb (is_ws c) && negb (Ascii.eqb c "]") && negb (Ascii.eqb c "}").

(** ** [JSON.stringify] *)

(** QuoteJSONString: the two-character escapes, [\u00xx] for the other
    control characters, every other byte as it is. *)
Definition escape_char (c : ascii) : string :=
  let n := N_of_ascii c in
  if Ascii.eqb c dquote then String backslash (String dquote EmptyString)
  else if Ascii.eqb c backslash then String backslash (String backslash EmptyString)
  else if (n =? 8)%N then "\b"
  else if (n =? 9)%N then "\t"
  else if (n =? 10)%N then "\n"
  else if (n =? 12)%N then "\f"
  else if (n =? 13)%N then "\r"
  else if (n <? 32)%N then
    "\u00" +:+ String (hex_char (n / 16)) (String (hex_char (n mod 16)) EmptyString)
  else String c EmptyString.

Fixpoint escape (s : string) : string :=
  match s with
  | EmptyString => EmptyString
  | String c s' => escape_char c +:+ escape s'
  end.

Definition quote (s : string) : string :=
  String dquote (escape s +:+ String dquote EmptyString).

Fixpoint join_comma (l : list string) : string :=
  match l with
  | [] => EmptyString
  | x :: l' =>
      match l' with
      | [] => x
      | _ :: _ => x +:+ "," +:+ join_comma l'
      end
  end.

Fixpoint stringify (v : json) : string :=
  match v with
  | JNull => "null"
  | JBool true => "true"
  | JBool false => "false"
  | JNum n => pretty n
  | JStr s => quote s
  | JArr l => "[" +:+ join_comma (List.map stringify l) +:+ "]"
  | JObj l =>
      "{" +:+ join_comma
                (List.map (λ kv, quote (fst kv) +:+ ":" +:+ stringify (snd kv)) l)
          +:+ "}"
  end.

(** ** [JSON.parse] *)

Fixpoint skip_ws (s : string) : string :=
  match s with
  | String c r => if is_ws c then skip_ws r else s
  | EmptyString => s
  end.

(** The bytes of the character a [\uXXXX] escape denotes (UTF-8).  Surrogate
    halves have no encoding of their own and are refused. *)
Definition utf8 (code : N) : option string :=
  if (code <? 128)%N then Some (String (ascii_of_N code) EmptyString)
  else if (code <? 2048)%N then
    Some (String (ascii_of_N (192 + code / 64))
            (String (ascii_of_N (128 + code mod 64)) EmptyString))
  else if ((55296 <=? code) && (code <=? 57343))%N then None
  else
    Some (String (ascii_of_N (224 + code / 4096))
            (String (ascii_of_N (128 + (code / 64) mod 64))
               (String (ascii_of_N (128 + code mod 64)) EmptyString))).

Definition hex4 (a b c d : ascii) : option N :=
  x1 ← hex_val a; x2 ← hex_val b; x3 ← hex_val c; x4 ← hex_val d;
  Some (((x1 * 16 + x2) * 16 + x3) * 16 + x4)%N.

Definition simple_escape (e : ascii) : option ascii :=
  let n := N_of_ascii e in
  if Ascii.eqb e dquote then Some dquote
  else if Ascii.eqb e backslash then Some backslash
  else if Ascii.eqb e "/" then Some "/"%char
  else if Ascii.eqb e "b" then Some (ascii_of_N 8)
  else if Ascii.eqb e "t" then Some (ascii_of_N 9)
  else if Ascii.eqb e "n" then Some (ascii_of_N 10)
  else if Ascii.eqb e "f" then Some (ascii_of_N 12)
  else if Ascii.eqb e "r" then Some (ascii_of_N 13)
  else None.

(** The characters of a string literal, read after its opening quote, up to
    and including the closing quote. *)
Fixpoint parse_chars (s : string) : option (string * string) :=
  match s with
  | EmptyString => None
  | String c rest =>
      if Ascii.eqb c dquote then Some (EmptyString, rest)
      else if Ascii.eqb c backslash then
        match rest with
        | EmptyString => None
        | String e rest1 =>
            if Ascii.eqb e "u" then
              match rest1 with
              | String h1 (String h2 (String h3 (String h4 rest2))) =>
                  code ← hex4 h1 h2 h3 h4;
                  bytes ← utf8 code;
                  sr ← parse_chars rest2;
                  Some (bytes +:+ fst sr, snd sr)
              | _ => None
              end
            else
              b ← simple_escape e;
              sr ← parse_chars rest1;
              Some (String b (fst sr), snd sr)
        end
      else if (N_of_ascii c <? 32)%N then None
      else
        sr ← parse_chars rest;
        Some (String c (fst sr), snd sr)
  end.

Fixpoint read_digits (acc : N) (s : string) : N * string :=
  match s with
  | String c r =>
      if is_digit c then read_digits (acc * 10 + digit_val c) r else (acc, s)
  | EmptyString => (acc, s)
  end.

(** A fraction or an exponent would follow here; the integers are the
    numbers of this model, so such a literal is refused. *)
Definition number_ends (r : string) : bool :=
  match r with
  | String c _ =>
      negb (is_digit c || Ascii.eqb c "." || Ascii.eqb c "e" || Ascii.eqb c "E")
  | EmptyString => true
  end.

Definition parse_nat (s : string) : option (N * string) :=
  match s with
  | String c r =>
      if negb (is_digit c) then None
      else if Ascii.eqb c "0" then
        if number_ends r then Some (0%N, r) else None
      else
        let nr := read_digits (digit_val c) r in
        if number_ends (snd nr) then Some nr else None
  | EmptyString => None
  end.

Definition parse_number (s : string) : option (Z * string) :=
  match s with
  | String c r =>
      if Ascii.eqb c "-" then
        nr ← parse_nat r; Some (- Z.of_N (fst nr), snd nr)
      else
        nr ← parse_nat s; Some (Z.of_N (fst nr), snd nr)
  | EmptyString => None
  end.

(** [expect w s]: the rest of [s] after the literal [w]. *)
Fixpoint expect (w s : string) : option string :=
  match w with
  | EmptyString => Some s
  | String c w' =>
      match s with
      | String c' s' => if Ascii.eqb c c' then expect w' s' else None
      | EmptyString => None
      end
  end.

Section containers.
(** The parser of the nested values. *)
Variable parse_value : string → option (json * string).

(** Elements after the opening bracket (or a comma), to the closing one. *)
Fixpoint parse_elements (n : nat) (s : string) : option (list json * string) :=
    match n with
    | O => None
    | S n' =>
        vr ← parse_value s;
        match skip_ws (snd vr) with
        | String c r =>
            if Ascii.eqb c "," then
              lr ← parse_elements n' r; Some (fst vr :: fst lr, snd lr)
            else if Ascii.eqb c "]" then Some ([fst vr], r)
            else None
        | EmptyString => None
        end
    end.

(** Members after the opening brace (or a comma), to the closing one. *)
Fixpoint parse_members (n : nat) (s : string)
    : option (list (string * json) * string) :=
    match n with
    | O => None
    | S n' =>
        match skip_ws s with
        | String q s1 =>
            if Ascii.eqb q dquote then
              kr ← parse_chars s1;
              match skip_ws (snd kr) with
              | String colon s2 =>
                  if Ascii.eqb colon ":" then
                    vr ← parse_value s2;
                    match skip_ws (snd vr) with
                    | String c r =>
                        if Ascii.eqb c "," then
                          lr ← parse_members n' r;
                          Some ((fst kr, fst vr) :: fst lr, snd lr)
                        else if Ascii.eqb c "}" then Some ([(fst kr, fst vr)], r)
                        else None
                    | EmptyString => None
                    end
                  else None
              | EmptyString => None
              end
            else None
        | EmptyString => None
        end
    end.
End containers.

(** One value and the text after it.  [fuel] bounds the nesting depth. *)
Fixpoint parse_value (fuel : nat) (s : string) : option (json * string) :=
  match fuel with
  | O => None
  | S fuel' =>
      match skip_ws s with
      | EmptyString => None
      | String c r =>
          if Ascii.eqb c "n" then r' ← expect "ull" r; Some (JNull, r')
          else if Ascii.eqb c "t" then r' ← expect "rue" r; Some (JBool true, r')
          else if Ascii.eqb c "f" then r' ← expect "alse" r; Some (JBool false, r')
          else if Ascii.eqb c dquote then
            sr ← parse_chars r; Some (JStr (fst sr), snd sr)
          else if Ascii.eqb c "[" then
            match skip_ws r with
            | String c' r' =>
                if Ascii.eqb c' "]" then Some (JArr [], r')
                else
                  lr ← parse_elements (parse_value fuel') (String.length r) r;
                  Some (JArr (fst lr), snd lr)
            | EmptyString => None
            end
          else if Ascii.eqb c "{" then
            match skip_ws r with
            | String c' r' =>
                if Ascii.eqb c' "}" then Some (JObj [], r')
                else
                  lr ← parse_members (parse_value fuel') (String.length r) r;
                  Some (JObj (fst lr), snd lr)
            | EmptyString => None
            end
          else
            nr ← parse_number (String c r); Some (JNum (fst nr), snd nr)
      end
  end.

(** [JSON.parse]: one value, then nothing but white space; [None] stands for
    the SyntaxError.  Nesting is at most the length of the text.  The
    function stands for [JSON.parse] on the texts [stringify] makes of the
    rows, which is all the routes store: there it gives back the document
    (see [JSONFacts.parse_stringify]).  Elsewhere it is narrower than the
    original: a literal with a fraction or an exponent is refused, an
    integer is kept exact where JavaScript rounds it to a double, and a key
    given twice is kept twice where JavaScript keeps the last. *)
Definition parse (s : string) : option json :=
  vr ← parse_value (S (String.length s)) s;
  match skip_ws (snd vr) with
  | EmptyString => Some (fst vr)
  | String _ _ => None
  end.

End JSON.
Import JSON.

(* ===================================================================== *)
(** * The data model of prisma/schema.prisma *)
(* ===================================================================== *)

(** [enum Role]. *)
Inductive Role : Type := USER | ASSISTANT | SYSTEM.

Definition Role_name (r : Role) : string :=
  match r with USER => "USER" | ASSISTANT => "ASSISTANT" | SYSTEM => "SYSTEM" end.

(** A [DateTime] is kept as milliseconds since the epoch. *)
Abbreviation DateTime := Z.

(** [model Chat] (the scalar fields, in the order of the schema). *)
Module Chat.
Record t : Type := mk {
  id : string;
  createdAt : DateTime;
  updatedAt : DateTime;
  userId : string;
  title : option string
}.
End Chat.

(** [model Message]. *)
Module Message.
Record t : Type := mk {
  id : string;
  content : string;
  role : Role;
  createdAt : DateTime;
  chatId : string;
  userId : option string
}.
End Message.

(** ** [Date.prototype.toISOString] *)

Fixpoint zeros (n : nat) : string :=
  match n with O => EmptyString | S n' => String "0" (zeros n') end.

Definition pad (width : nat) (n : Z) : string :=
  let d := pretty (Z.to_N n) in
  zeros (width - String.length d) +:+ d.

(** Year, month and day of a day count from 1970-01-01 (proleptic
    Gregorian calendar). *)
Definition civil_from_days (days : Z) : Z * Z * Z :=
  let z := days + 719468 in
  let era := z / 146097 in
  let doe := z - era * 146097 in
  let yoe := (doe - doe / 1460 + doe / 36524 - doe / 146096) / 365 in
  let doy := doe - (365 * yoe + yoe / 4 - yoe / 100) in
  let mp := (5 * doy + 2) / 153 in
  let d := doy - (153 * mp + 2) / 5 + 1 in
  let m := if mp <? 10 then mp + 3 else mp - 9 in
  let y := yoe + era * 400 + (if m <=? 2 then 1 else 0) in
  (y, m, d).

Definition toISOString (t : DateTime) : string :=
  let days := t / 86400000 in
  let ms := t mod 86400000 in
  let '(y, m, d) := civil_from_days days in
  let year :=
    if (0 <=? y) && (y <=? 9999) then pad 4 y
    else (if y <? 0 then "-" else "+") +:+ pad 6 (Z.abs y) in
  year +:+ "-" +:+ pad 2 m +:+ "-" +:+ pad 2 d +:+ "T"
    +:+ pad 2 (ms / 3600000) +:+ ":" +:+ pad 2 (ms / 60000 mod 60) +:+ ":"
    +:+ pad 2 (ms / 1000 mod 60) +:+ "." +:+ pad 3 (ms mod 1000) +:+ "Z".

(** ** The JSON form of the rows

    What [JSON.stringify] and [NextResponse.json] make of a row: a [Date]
    is its ISO string, [null] stays [null]. *)

Definition nullable (o : option string) : json :=
  match o with Some s => JStr s | None => JNull end.

Definition Chat_toJSON (c : Chat.t) : json :=
  JObj [ ("id", JStr (Chat.id c));
         ("createdAt", JStr (toISOString (Chat.createdAt c)));
         ("updatedAt", JStr (toISOString (Chat.updatedAt c)));
         ("userId", JStr (Chat.userId c));
         ("title", nullable (Chat.title c)) ].

Definition Message_toJSON (m : Message.t) : json :=
  JObj [ ("id", JStr (Message.id m));
         ("content", JStr (Message.content m));
         ("role", JStr (Role_name (Message.role m)));
         ("createdAt", JStr (toISOString (Message.createdAt m)));
         ("chatId", JStr (Message.chatId m));
         ("userId", nullable (Message.userId m)) ].

Definition chats_toJSON (l : list Chat.t) : json := JArr (List.map Chat_toJSON l).
Definition messages_toJSON (l : list Message.t) : json :=
  JArr (List.map Message_toJSON l).

(* ===================================================================== *)
(** * The world around the handlers *)
(* ===================================================================== *)

(** A Redis key with its expiry instant ([ex] seconds after the [set]). *)
Record CacheEntry : Type := {
  value : string;
  expires_at : DateTime
}.

(** The [onFinish] closure that [streamText] holds until the generation has
    finished: [text] is the argument it will be called with, [chatId] and
    [userId] ([session.user.id]) are what it captured. *)
Record Task : Type := {
  task_text : string;
  task_chatId : string;
  task_userId : string
}.

Record World : Type := {
  (* Postgres, behind the Prisma client [db] *)
  db_users : list string;                  (* ids of the User rows *)
  db_chats : list Chat.t;                  (* in insertion order *)
  db_messages : list Message.t;            (* in insertion order *)
  db_seq : N;                              (* ids handed out by [@default(cuid())] *)
  (* Upstash Redis, behind the client [redis] *)
  redis : gmap string CacheEntry;
  automaticDeserialization : bool;         (* option of the Redis client *)
  (* the windows of the two rate-limit classes, by identifier *)
  write_hits : gmap string (list DateTime);
  read_hits : gmap string (list DateTime);
  (* completion callbacks not yet run *)
  detached : list Task;
  (* console.error / console.log *)
  console : list string
}.

(** Failures of the collaborators during one request: [Some e] makes the
    call throw [e]. *)
Record Faults : Type := {
  limit_fails : option string;
  redis_get_fails : option string;
  redis_set_fails : option string;
  redis_del_fails : option string;
  chat_create_fails : option string;
  message_create_fails : option string;
  findMany_fails : option string
}.

Definition no_faults : Faults :=
  {| limit_fails := None; redis_get_fails := None; redis_set_fails := None;
     redis_del_fails := None; chat_create_fails := None;
     message_create_fails := None; findMany_fails := None |}.

Record User : Type := { id : string }.
Record Session : Type := { user : option User }.

(** What a handler reads from its request and its surroundings. *)
Record Request : Type := {
  x_forwarded_for : option string;     (* headersList.get("x-forwarded-for") *)
  auth : option Session;               (* await auth() *)
  body : option JSON.json;             (* the body, parsed; None: req.json() throws *)
  searchParams_chatId : option string; (* searchParams.get("chatId") *)
  generation : list string;            (* the fragments the model yields *)
  now : DateTime;                      (* the clock, in milliseconds *)
  faults : Faults
}.

(** What a handler returns: [NextResponse.json(body, { status, headers })],
    or the response [result.toDataStreamResponse()] makes of a completion,
    kept as the text parts it carries, in order (the framing of the stream
    protocol is left out). *)
Inductive Response : Type :=
| NextResponse_json (body : JSON.json) (status : Z) (headers : list (string * string))
| DataStreamResponse (textStream : list string).

Definition status_of (r : Response) : Z :=
  match r with
  | NextResponse_json _ st _ => st
  | DataStreamResponse _ => 200
  end.

(* ===================================================================== *)
(** * State and exceptions *)
(* ===================================================================== *)

Inductive outcome (A : Type) : Type :=
| Ok (a : A)
| Throw (error : string).
Arguments Ok {A} a.
Arguments Throw {A} error.

Definition M (A : Type) : Type := World → outcome A * World.

Definition ret {A} (a : A) : M A := λ w, (Ok a, w).
Definition throw {A} (e : string) : M A := λ w, (Throw e, w).
Definition bind {A B} (m : M A) (k : A → M B) : M B := λ w,
  match m w with
  | (Ok a, w') => k a w'
  | (Throw e, w') => (Throw e, w')
  end.

Declare Scope route_scope.
Delimit Scope route_scope with route.
Notation "'await' x <- m ; k" := (bind m (λ x, k))
  (at level 10, x name, m at level 100, k at level 200,
   format "'[v' 'await'  x  <-  m ; '/' k ']'") : route_scope.
Notation "'perform' m ; k" := (bind m (λ _, k))
  (at level 10, m at level 100, k at level 200,
   format "'[v' 'perform'  m ; '/' k ']'") : route_scope.
Local Open Scope route_scope.

Definition console_error (e : string) (w : World) : World :=
  {| db_users := db_users w; db_chats := db_chats w; db_messages := db_messages w;
     db_seq := db_seq w; redis := redis w;
     automaticDeserialization := automaticDeserialization w;
     write_hits := write_hits w; read_hits := read_hits w;
     detached := detached w; console := console w ++ [e] |}.

(** [try { ... } catch (error) { console.error(error); return 500 }]. *)
Definition try_catch (tag : string) (m : M Response) (w : World) : Response * World :=
  match m w with
  | (Ok r, w') => (r, w')
  | (Throw e, w') =>
      (NextResponse_json (JObj [("error", JStr (tag +:+ " -- " +:+ e))]) 500 [],
       console_error e w')
  end.

Definition with_db_chats (l : list Chat.t) (n : N) (w : World) : World :=
  {| db_users := db_users w; db_chats := l; db_messages := db_messages w;
     db_seq := n; redis := redis w;
     automaticDeserialization := automaticDeserialization w;
     write_hits := write_hits w; read_hits := read_hits w;
     detached := detached w; console := console w |}.

Definition with_db_messages (l : list Message.t) (n : N) (w : World) : World :=
  {| db_users := db_users w; db_chats := db_chats w; db_messages := l;
     db_seq := n; redis := redis w;
     automaticDeserialization := automaticDeserialization w;
     write_hits := write_hits w; read_hits := read_hits w;
     detached := detached w; console := console w |}.

Definition with_redis (r : gmap string CacheEntry) (w : World) : World :=
  {| db_users := db_users w; db_chats := db_chats w; db_messages := db_messages w;
     db_seq := db_seq w; redis := r;
     automaticDeserialization := automaticDeserialization w;
     write_hits := write_hits w; read_hits := read_hits w;
     detached := detached w; console := console w |}.

Definition with_write_hits (h : gmap string (list DateTime)) (w : World) : World :=
  {| db_users := db_users w; db_chats := db_chats w; db_messages := db_messages w;
     db_seq := db_seq w; redis := redis w;
     automaticDeserialization := automaticDeserialization w;
     write_hits := h; read_hits := read_hits w;
     detached := detached w; console := console w |}.

Definition with_read_hits (h : gmap string (list DateTime)) (w : World) : World :=
  {| db_users := db_users w; db_chats := db_chats w; db_messages := db_messages w;
     db_seq := db_seq w; redis := redis w;
     automaticDeserialization := automaticDeserialization w;
     write_hits := write_hits w; read_hits := h;
     detached := detached w; console := console w |}.

Definition with_detached (l : list Task) (w : World) : World :=
  {| db_users := db_users w; db_chats := db_chats w; db_messages := db_messages w;
     db_seq := db_seq w; redis := redis w;
     automaticDeserialization := automaticDeserialization w;
     write_hits := write_hits w; read_hits := read_hits w;
     detached := l; console := console w |}.

(* ===================================================================== *)
(** * The rate limiter (@upstash/ratelimit) *)
(* ===================================================================== *)

Inductive LimitClass : Type := WriteClass | ReadClass.

Record Ratelimit : Type := {
  limit_class : LimitClass;
  tokens : Z;          (* budget of the window *)
  window : Z           (* length of the window, in milliseconds *)
}.

Record RatelimitResponse : Type := {
  success : bool;
  limit : Z;
  reset : DateTime;
  remaining : Z
}.

Definition in_window (window now t : DateTime) : bool :=
  (now - window <=? t) && (t <=? now).

(** Modelled from the spec: the decision of [Ratelimit.slidingWindow], whose
    code (the @upstash/ratelimit package) is not part of the sources.  It
    counts the recorded requests whose timestamp falls within
    [[now - W, now]], admits while fewer than the budget are there, and
    records the admitted request; a rejection reports [remaining = 0].
    [reset] is the instant the oldest counted request leaves the window. *)
Definition slidingWindow (tokens window : Z) (hits : list DateTime) (now : DateTime)
  : RatelimitResponse * list DateTime :=
  let live := List.filter (in_window window now) hits in
  let used := Z.of_nat (length live) in
  let reset := foldr Z.min now live + window in
  if used <? tokens then
    ({| success := true; limit := tokens; reset := reset;
        remaining := tokens - used - 1 |}, now :: hits)
  else
    ({| success := false; limit := tokens; reset := reset; remaining := 0 |}, hits).

Definition hits_of (c : LimitClass) (w : World) : gmap string (list DateTime) :=
  match c with WriteClass => write_hits w | ReadClass => read_hits w end.

Definition with_hits (c : LimitClass) (h : gmap string (list DateTime)) (w : World)
  : World :=
  match c with WriteClass => with_write_hits h w | ReadClass => with_read_hits h w end.

(** Modelled from the spec: [ratelimit.limit(identifier)].  The windows are
    kept per class and identifier and shared by the operations of a class;
    an unreachable backing store makes the call throw. *)
Definition Ratelimit_limit (rl : Ratelimit) (identifier : string) (req : Request)
  : M RatelimitResponse := λ w,
  match limit_fails (faults req) with
  | Some e => (Throw e, w)
  | None =>
      let hits := default [] (hits_of (limit_class rl) w !! identifier) in
      let '(resp, hits') := slidingWindow (tokens rl) (window rl) hits (now req) in
      (Ok resp, with_hits (limit_class rl) (<[identifier := hits']> (hits_of (limit_class rl) w)) w)
  end.

(** [Ratelimit.slidingWindow(10, "10 s")] and [Ratelimit.slidingWindow(30, "10 s")],
    declared alike in each route module, over the one [redis]. *)
Definition postReqRateLimit : Ratelimit :=
  {| limit_class := WriteClass; tokens := 10; window := 10 * 1000 |}.
Definition getReqRateLimit : Ratelimit :=
  {| limit_class := ReadClass; tokens := 30; window := 10 * 1000 |}.

(* ===================================================================== *)
(** * The Redis client *)
(* ===================================================================== *)

(** What [get] hands back for a stored text: with automatic deserialization
    the parsed document when the text is JSON, the text itself otherwise. *)
Definition deserialize (auto : bool) (raw : string) : JSON.json :=
  if auto then
    match JSON.parse raw with
    | Some v => v
    | None => JStr raw
    end
  else JStr raw.

(** What the store holds under [key] at instant [t]: [null] for a key that is
    absent or has expired. *)
Definition cache_lookup (key : string) (t : DateTime) (w : World) : JSON.json :=
  match redis w !! key with
  | Some e =>
      if t <? expires_at e
      then deserialize (automaticDeserialization w) (value e)
      else JNull
  | None => JNull
  end.

(** [redis.get(key)]. *)
Definition redis_get (key : string) (req : Request) : M JSON.json := λ w,
  match redis_get_fails (faults req) with
  | Some e => (Throw e, w)
  | None => (Ok (cache_lookup key (now req) w), w)
  end.

(** [redis.set(key, value, { ex })]. *)
Definition redis_set (key value : string) (ex : Z) (req : Request) : M unit := λ w,
  match redis_set_fails (faults req) with
  | Some e => (Throw e, w)
  | None =>
      (Ok (),
       with_redis
         (<[key := {| value := value; expires_at := now req + ex * 1000 |}]> (redis w)) w)
  end.

(** [redis.del(key)]. *)
Definition redis_del (key : string) (req : Request) : M unit := λ w,
  match redis_del_fails (faults req) with
  | Some e => (Throw e, w)
  | None => (Ok (), with_redis (delete key (redis w)) w)
  end.

(* ===================================================================== *)
(** * The Prisma client *)
(* ===================================================================== *)

(** [@default(cuid())]: a new identifier for every row. *)
Definition cuid (n : N) : string := "c" +:+ pretty n.

Definition chat_exists (chatId : string) (w : World) : bool :=
  existsb (λ c, String.eqb (Chat.id c) chatId) (db_chats w).
Definition user_exists (userId : string) (w : World) : bool :=
  existsb (String.eqb userId) (db_users w).

Definition foreign_key_error : string :=
  "PrismaClientKnownRequestError: Foreign key constraint violated".

(** [db.chat.create({ data: { title, userId } })]; [userId] references a
    [User]. *)
Definition db_chat_create (title : option string) (userId : string) (req : Request)
  : M Chat.t := λ w,
  match chat_create_fails (faults req) with
  | Some e => (Throw e, w)
  | None =>
      if user_exists userId w then
        let chat := {| Chat.id := cuid (db_seq w); Chat.createdAt := now req;
                       Chat.updatedAt := now req; Chat.userId := userId;
                       Chat.title := title |} in
        (Ok chat, with_db_chats (db_chats w ++ [chat]) (N.succ (db_seq w)) w)
      else (Throw foreign_key_error, w)
  end.

(** [db.message.create({ data: { content, role, chatId, userId } })];
    [chatId] references a [Chat] and [userId], when given, a [User]. *)
Definition db_message_create (content : string) (role : Role) (chatId : string)
    (userId : option string) (req : Request) : M Message.t := λ w,
  match message_create_fails (faults req) with
  | Some e => (Throw e, w)
  | None =>
      if chat_exists chatId w
         && match userId with Some u => user_exists u w | None => true end
      then
        let message := {| Message.id := cuid (db_seq w); Message.content := content;
                          Message.role := role; Message.createdAt := now req;
                          Message.chatId := chatId; Message.userId := userId |} in
        (Ok message, with_db_messages (db_messages w ++ [message]) (N.succ (db_seq w)) w)
      else (Throw foreign_key_error, w)
  end.

(** [orderBy: { createdAt: "desc" }] and [orderBy: { createdAt: "asc" }].
    Rows of equal [createdAt] come in the order the merge leaves them. *)
Definition chat_desc (a b : Chat.t) : Prop := Chat.createdAt b ≤ Chat.createdAt a.
Definition message_asc (a b : Message.t) : Prop :=
  Message.createdAt a ≤ Message.createdAt b.

#[global] Instance chat_desc_dec : RelDecision chat_desc.
Proof. intros a b. unfold chat_desc. apply _. Defined.
#[global] Instance message_asc_dec : RelDecision message_asc.
Proof. intros a b. unfold message_asc. apply _. Defined.

Definition chats_of (userId : string) (l : list Chat.t) : list Chat.t :=
  merge_sort chat_desc (List.filter (λ c, String.eqb (Chat.userId c) userId) l).
Definition messages_of (chatId : string) (l : list Message.t) : list Message.t :=
  merge_sort message_asc (List.filter (λ m, String.eqb (Message.chatId m) chatId) l).

(** [db.chat.findMany({ where: { userId }, orderBy: { createdAt: "desc" } })]. *)
Definition db_chat_findMany (userId : string) (req : Request) : M (list Chat.t) := λ w,
  match findMany_fails (faults req) with
  | Some e => (Throw e, w)
  | None => (Ok (chats_of userId (db_chats w)), w)
  end.

(** [db.message.findMany({ where: { chatId }, orderBy: { createdAt: "asc" } })]. *)
Definition db_message_findMany (chatId : string) (req : Request)
  : M (list Message.t) := λ w,
  match findMany_fails (faults req) with
  | Some e => (Throw e, w)
  | None => (Ok (messages_of chatId (db_messages w)), w)
  end.

(* ===================================================================== *)
(** * Request bodies and their zod schemas *)
(* ===================================================================== *)

(** [await req.json()]. *)
Definition req_json (req : Request) : M JSON.json :=
  match body req with
  | Some v => ret v
  | None => throw "SyntaxError: Unexpected end of JSON input"
  end.

(** The text of a [ZodError], cut down to the first offending path. *)
Definition ZodError (path expected : string) : string :=
  "ZodError: " +:+ path +:+ ": " +:+ expected.

Definition z_object (body : JSON.json) : M (list (string * JSON.json)) :=
  match body with
  | JObj l => ret l
  | _ => throw (ZodError "body" "Expected object")
  end.

Definition z_string (path : string) (field : option JSON.json) : M string :=
  match field with
  | Some (JStr s) => ret s
  | _ => throw (ZodError path "Expected string")
  end.

Definition z_string_optional (path : string) (field : option JSON.json)
  : M (option string) :=
  match field with
  | None => ret None
  | Some (JStr s) => ret (Some s)
  | Some _ => throw (ZodError path "Expected string")
  end.

Definition Role_of_name (s : string) : option Role :=
  if String.eqb s "USER" then Some USER
  else if String.eqb s "ASSISTANT" then Some ASSISTANT
  else if String.eqb s "SYSTEM" then Some SYSTEM
  else None.

(** [z.enum(["USER", "ASSISTANT", "SYSTEM"])]. *)
Definition z_enum_Role (path : string) (field : option JSON.json) : M Role :=
  match field with
  | Some (JStr s) =>
      match Role_of_name s with
      | Some r => ret r
      | None => throw (ZodError path "Invalid enum value")
      end
  | _ => throw (ZodError path "Invalid enum value")
  end.

(** chat/route.ts: [z.object({ message: z.string().optional() })]. *)
Definition ChatBodySchema_parse (body : JSON.json) : M (option string) :=
  await o <- z_object body;
  z_string_optional "message" (assoc "message" o).

(** chat/messages/route.ts:
    [z.object({ chatId: z.string(), content: z.string(), role: z.enum([...]) })]. *)
Definition bodySchema_parse (body : JSON.json) : M (string * string * Role) :=
  await o <- z_object body;
  await chatId <- z_string "chatId" (assoc "chatId" o);
  await content <- z_string "content" (assoc "content" o);
  await role <- z_enum_Role "role" (assoc "role" o);
  ret (chatId, content, role).

(** chat/aiResponse/route.ts:
    [z.object({ chatId: z.string(), content: z.string() })]. *)
Definition aiBodySchema_parse (body : JSON.json) : M (string * string) :=
  await o <- z_object body;
  await chatId <- z_string "chatId" (assoc "chatId" o);
  await content <- z_string "content" (assoc "content" o);
  ret (chatId, content).

(* ===================================================================== *)
(** * Responses shared by the routes *)
(* ===================================================================== *)

Definition ok_json (body : JSON.json) : Response := NextResponse_json body 200 [].

Definition error_json (message : string) (status : Z) : Response :=
  NextResponse_json (JObj [("error", JStr message)]) status [].

(** The 429 answer, the same in the five handlers. *)
Definition too_many_requests (r : RatelimitResponse) : Response :=
  NextResponse_json
    (JObj [ ("error", JStr "Too many requests");
            ("limit", JNum (limit r));
            ("reset", JNum (reset r));
            ("remaining", JNum (remaining r)) ])
    429
    [ ("X-RateLimit-Limit", pretty (limit r));
      ("X-RateLimit-Remaining", pretty (remaining r));
      ("X-RateLimit-Reset", pretty (reset r)) ].

(** [headersList.get("x-forwarded-for") ?? "anonymous"]. *)
Definition ip_of (req : Request) : string :=
  default "anonymous" (x_forwarded_for req).

(** [session?.user]. *)
Definition session_user (req : Request) : option User :=
  match auth req with
  | Some s => user s
  | None => None
  end.

(* ===================================================================== *)
(** * src/app/api/chat/route.ts *)
(* ===================================================================== *)

Definition chats_cacheKey (userId : string) : string := "user:chats:" +:+ userId.

Definition POST_chat (req : Request) : World → Response * World :=
  try_catch "[[CHAT_POST]]"
    (await rl <- Ratelimit_limit postReqRateLimit (ip_of req) req;
     if negb (success rl) then ret (too_many_requests rl)
     else
       match session_user req with
       | None => ret (error_json "Unauthorized" 401)
       | Some u =>
           await body <- req_json req;
           await message <- ChatBodySchema_parse body;
           match message with
           | None => ret (error_json "Missing message" 400)
           | Some message =>
               if String.eqb message EmptyString
               then ret (error_json "Missing message" 400)
               else
                 await chat <- db_chat_create (Some "New Chat") (id u) req;
                 let cacheKey := chats_cacheKey (id u) in
                 perform redis_del cacheKey req;
                 await firstMessage <-
                   db_message_create message USER (Chat.id chat) (Some (id u)) req;
                 ret (ok_json (JObj [("chatId", JStr (Chat.id chat))]))
           end
       end).

Definition GET_chat (req : Request) : World → Response * World :=
  try_catch "[[CHAT_GET]]"
    (await rl <- Ratelimit_limit getReqRateLimit (ip_of req) req;
     if negb (success rl) then ret (too_many_requests rl)
     else
       match session_user req with
       | None => ret (error_json "Unauthorized" 401)
       | Some u =>
           let cacheKey := chats_cacheKey (id u) in
           await cachedChats <- redis_get cacheKey req;
           if truthy cachedChats then
             await chats <-
               match cachedChats with
               | JStr text =>
                   match JSON.parse text with
                   | Some v => ret v
                   | None => throw "SyntaxError: Unexpected token in JSON"
                   end
               | v => ret v
               end;
             ret (ok_json (JObj [("chats", chats); ("cached", JBool true)]))
           else
             await chats <- db_chat_findMany (id u) req;
             perform redis_set cacheKey (stringify (chats_toJSON chats)) 300 req;
             ret (ok_json (JObj [("chats", chats_toJSON chats); ("cached", JBool false)]))
       end).

(* ===================================================================== *)
(** * src/app/api/chat/messages/route.ts *)
(* ===================================================================== *)

Definition messages_cacheKey (userId chatId : string) : string :=
  "user:messages:" +:+ userId +:+ ":chat:" +:+ chatId.

Definition POST_messages (req : Request) : World → Response * World :=
  try_catch "[[MESSAGES_POST]]"
    (await rl <- Ratelimit_limit postReqRateLimit (ip_of req) req;
     if negb (success rl) then ret (too_many_requests rl)
     else
       match session_user req with
       | None => ret (error_json "Unauthorized" 401)
       | Some u =>
           await body <- req_json req;
           await parsed <- bodySchema_parse body;
           let '(chatId, content, role) := parsed in
           await message <- db_message_create content role chatId (Some (id u)) req;
           let cacheKey := messages_cacheKey (id u) chatId in
           perform redis_del cacheKey req;
           ret (ok_json (JObj [("message", Message_toJSON message)]))
       end).

Definition GET_messages (req : Request) : World → Response * World :=
  try_catch "[[MESSAGES_GET]]"
    (await rl <- Ratelimit_limit getReqRateLimit (ip_of req) req;
     if negb (success rl) then ret (too_many_requests rl)
     else
       match session_user req with
       | None => ret (error_json "Unauthorized" 401)
       | Some u =>
           match searchParams_chatId req with
           | None => ret (error_json "Missing chatId" 400)
           | Some chatId =>
               if String.eqb chatId EmptyString
               then ret (error_json "Missing chatId" 400)
               else
                 let cacheKey := messages_cacheKey (id u) chatId in
                 await cachedMessages <- redis_get cacheKey req;
                 if truthy cachedMessages then
                   await messages <-
                     match cachedMessages with
                     | JStr text =>
                         match JSON.parse text with
                         | Some v => ret v
                         | None => throw "SyntaxError: Unexpected token in JSON"
                         end
                     | v => ret v
                     end;
                   ret (ok_json (JObj [("messages", messages); ("cached", JBool true)]))
                 else
                   await messages <- db_message_findMany chatId req;
                   perform redis_set cacheKey (stringify (messages_toJSON messages)) 300 req;
                   ret (ok_json (JObj [("messages", messages_toJSON messages);
                                       ("cached", JBool false)]))
           end
       end).

(* ===================================================================== *)
(** * src/app/api/chat/aiResponse/route.ts *)
(* ===================================================================== *)

Definition console_log (line : string) (w : World) : World := console_error line w.

(** The text [onFinish] receives: the fragments, one after the other. *)
Definition full_text (fragments : list string) : string :=
  foldr String.append EmptyString fragments.

(** Modelled from the spec: [streamText({ model, system, messages, onFinish })]
    of the ai package, which is not part of the sources (the generation
    backend of the spec: a finite sequence of text fragments and, at its
    end, the accumulated text).  The fragments of the generation are the
    stream of the result, and the [onFinish] closure stays behind, to be
    called with the whole text once the generation has finished. *)
Definition streamText (req : Request) (chatId userId : string) : M (list string) := λ w,
  (Ok (generation req),
   with_detached
     (detached w ++ [ {| task_text := full_text (generation req);
                         task_chatId := chatId; task_userId := userId |} ]) w).

(** The body of [onFinish: async ({ text }) => { ... }]. *)
Definition onFinish (t : Task) (req : Request) (w : World) : World :=
  if negb (String.eqb (task_text t) EmptyString) then
    match db_message_create (task_text t) ASSISTANT (task_chatId t)
            (Some (task_userId t)) req w with
    | (Ok _, w') =>
        console_log ("AI response saved to DB for chat: " +:+ task_chatId t) w'
    | (Throw dbError, w') =>
        console_error ("Error saving AI response to database: " +:+ dbError) w'
    end
  else w.

Definition POST_aiResponse (req : Request) : World → Response * World :=
  try_catch "[[AI_RESPONSE_POST]]"
    (await rl <- Ratelimit_limit postReqRateLimit (ip_of req) req;
     if negb (success rl) then ret (too_many_requests rl)
     else
       match session_user req with
       | None => ret (error_json "Unauthorized" 401)
       | Some u =>
           await body <- req_json req;
           await parsed <- aiBodySchema_parse body;
           let '(chatId, content) := parsed in
           (* [content] is the one user message sent to the model; what the
              model answers is [generation req] *)
           await result <- streamText req chatId (id u);
           ret (DataStreamResponse result)
       end).

(** The generation of the oldest pending completion finishes: its
    [onFinish] runs, in surroundings [req] of its own. *)
Definition finish_generation (req : Request) (w : World) : World :=
  match detached w with
  | [] => w
  | t :: rest => onFinish t req (with_detached rest w)
  end.

(* ===================================================================== *)
(** * A list in flight *)
(* ===================================================================== *)

(** A handler runs until an [await] and goes on when the awaited call has
    answered; other requests are served in between.  For a list that misses
    the cache the suspension between the store query and [await redis.set]
    is the one during which a create can come and go: the two halves of
    each GET follow, cut at that [await]. *)

(** A list at that point: it has answered already, or it holds the rows of
    the store and the key it is about to write them under. *)
Inductive InFlight (Row : Type) : Type :=
| Answered (resp : Response)
| Holding (cacheKey : string) (rows : list Row).
Arguments Answered {Row} resp.
Arguments Holding {Row} cacheKey rows.

(** The part of a [try] block before the cut, and the part after it. *)
Definition suspend {Row} (tag : string) (m : M (InFlight Row)) (w : World)
  : InFlight Row * World :=
  match m w with
  | (Ok s, w') => (s, w')
  | (Throw e, w') =>
      (Answered (NextResponse_json (JObj [("error", JStr (tag +:+ " -- " +:+ e))]) 500 []),
       console_error e w')
  end.

Definition resume {Row} (tag : string) (k : string → list Row → M Response)
    (s : InFlight Row) (w : World) : Response * World :=
  match s with
  | Answered resp => (resp, w)
  | Holding cacheKey rows => try_catch tag (k cacheKey rows) w
  end.

(** GET of chat/route.ts, lines 101-148. *)
Definition GET_chat_query (req : Request) : M (InFlight Chat.t) :=
  await rl <- Ratelimit_limit getReqRateLimit (ip_of req) req;
  if negb (success rl) then ret (Answered (too_many_requests rl))
  else
    match session_user req with
    | None => ret (Answered (error_json "Unauthorized" 401))
    | Some u =>
        let cacheKey := chats_cacheKey (id u) in
        await cachedChats <- redis_get cacheKey req;
        if truthy cachedChats then
          await chats <-
            match cachedChats with
            | JStr text =>
                match JSON.parse text with
                | Some v => ret v
                | None => throw "SyntaxError: Unexpected token in JSON"
                end
            | v => ret v
            end;
          ret (Answered (ok_json (JObj [("chats", chats); ("cached", JBool true)])))
        else
          await chats <- db_chat_findMany (id u) req;
          ret (Holding cacheKey chats)
    end.

(** GET of chat/route.ts, lines 150-152. *)
Definition GET_chat_populate (req : Request) (cacheKey : string) (chats : list Chat.t)
  : M Response :=
  perform redis_set cacheKey (stringify (chats_toJSON chats)) 300 req;
  ret (ok_json (JObj [("chats", chats_toJSON chats); ("cached", JBool false)])).

Definition GET_chat_suspend (req : Request) : World → InFlight Chat.t * World :=
  suspend "[[CHAT_GET]]" (GET_chat_query req).
Definition GET_chat_resume (req : Request) : InFlight Chat.t → World → Response * World :=
  resume "[[CHAT_GET]]" (GET_chat_populate req).




(* ===================================================================== *)
(** * Vocabulary of the statements *)
(* ===================================================================== *)

(** The limiter is reachable and lets the request in. *)
Definition admitted (rl : Ratelimit) (req : Request) (w : World) : Prop :=
  limit_fails (faults req) = None
  ∧ success (fst (slidingWindow (tokens rl) (window rl)
                    (default [] (hits_of (limit_class rl) w !! ip_of req))
                    (now req))) = true.

(** How many of the recorded requests a request at [now] finds in its window
    of ten seconds. *)
Definition live (now : DateTime) (hits : list DateTime) : nat :=
  length (List.filter (in_window (10 * 1000) now) hits).

(** No usable entry under [key] when [req] arrives. *)
Definition cache_miss (key : string) (req : Request) (w : World) : Prop :=
  truthy (cache_lookup key (now req) w) = false.

(** The cache store fails a list with [e]: the [get] throws, or the [get]
    misses, the store returns the rows and the [set] throws. *)
Definition cache_fails (key : string) (req : Request) (w : World) (e : string)
  : Prop :=
  redis_get_fails (faults req) = Some e
  ∨ (redis_get_fails (faults req) = None ∧ cache_miss key req w
     ∧ findMany_fails (faults req) = None
     ∧ redis_set_fails (faults req) = Some e).

(** The [role] of a CreateMessage body is one of the three names. *)
Definition role_in_enum (body : JSON.json) : bool :=
  match body with
  | JObj o =>
      match assoc "role" o with
      | Some (JStr s) =>
          match Role_of_name s with Some _ => true | None => false end
      | _ => false
      end
  | _ => false
  end.

(** The write-class operations. *)
Inductive WriteOp : Type := CreateChat | CreateMessage | StartCompletion.

Definition run_write (op : WriteOp) (req : Request) : World → Response * World :=
  match op with
  | CreateChat => POST_chat req
  | CreateMessage => POST_messages req
  | StartCompletion => POST_aiResponse req
  end.

(** The operations of a list, one after the other. *)
Fixpoint run_writes (ops : list (WriteOp * Request)) (w : World)
  : list Response * World :=
  match ops with
  | [] => ([], w)
  | (op, req) :: ops' =>
      let '(r, w1) := run_write op req w in
      let '(rs, w2) := run_writes ops' w1 in
      (r :: rs, w2)
  end.

(** The five operations and their tags in the server-fault answer. *)
Inductive Operation : Type :=
  OpCreateChat | OpListChats | OpCreateMessage | OpListMessages | OpStartCompletion.

Definition handler (op : Operation) : Request → World → Response * World :=
  match op with
  | OpCreateChat => POST_chat
  | OpListChats => GET_chat
  | OpCreateMessage => POST_messages
  | OpListMessages => GET_messages
  | OpStartCompletion => POST_aiResponse
  end.

Definition tag (op : Operation) : string :=
  match op with
  | OpCreateChat => "[[CHAT_POST]]"
  | OpListChats => "[[CHAT_GET]]"
  | OpCreateMessage => "[[MESSAGES_POST]]"
  | OpListMessages => "[[MESSAGES_GET]]"
  | OpStartCompletion => "[[AI_RESPONSE_POST]]"
  end.

(** The answer of the [catch] block. *)
Definition server_fault (op : Operation) (e : string) : Response :=
  error_json (tag op +:+ " -- " +:+ e) 500.

(** ** A small world to run the handlers in *)

Module Example.

Definition chat0 : Chat.t :=
  {| Chat.id := "c0"; Chat.createdAt := 1000; Chat.updatedAt := 1000;
     Chat.userId := "u1"; Chat.title := Some "New Chat" |}.

Definition message0 : Message.t :=
  {| Message.id := "c1"; Message.content := "hi"; Message.role := USER;
     Message.createdAt := 1000; Message.chatId := "c0";
     Message.userId := Some "u1" |}.

(** Two users; the first owns the one chat, which holds one message. *)
Definition world : World :=
  {| db_users := ["u1"; "u2"]; db_chats := [chat0]; db_messages := [message0];
     db_seq := 2; redis := ∅; automaticDeserialization := true;
     write_hits := ∅; read_hits := ∅; detached := []; console := [] |}.

Definition request (userId : string) (t : DateTime) : Request :=
  {| x_forwarded_for := Some "203.0.113.7";
     auth := Some {| user := Some {| id := userId |} |};
     body := None; searchParams_chatId := None; generation := [];
     now := t; faults := no_faults |}.

Definition with_json (b : JSON.json) (req : Request) : Request :=
  {| x_forwarded_for := x_forwarded_for req; auth := auth req;
     body := Some b; searchParams_chatId := searchParams_chatId req;
     generation := generation req; now := now req; faults := faults req |}.

Definition with_chatId (chatId : string) (req : Request) : Request :=
  {| x_forwarded_for := x_forwarded_for req; auth := auth req;
     body := body req; searchParams_chatId := Some chatId;
     generation := generation req; now := now req; faults := faults req |}.

Definition with_generation (fragments : list string) (req : Request) : Request :=
  {| x_forwarded_for := x_forwarded_for req; auth := auth req;
     body := body req; searchParams_chatId := searchParams_chatId req;
     generation := fragments; now := now req; faults := faults req |}.

Definition with_faults (f : Faults) (req : Request) : Request :=
  {| x_forwarded_for := x_forwarded_for req; auth := auth req;
     body := body req; searchParams_chatId := searchParams_chatId req;
     generation := generation req; now := now req; faults := f |}.

Definition at_time (t : DateTime) (req : Request) : Request :=
  {| x_forwarded_for := x_forwarded_for req; auth := auth req;
     body := body req; searchParams_chatId := searchParams_chatId req;
     generation := generation req; now := t; faults := faults req |}.

(** CreateChat, CreateMessage and StartCompletion by the first user. *)
Definition create_chat : Request :=
  with_json (JObj [("message", JStr "hello")]) (request "u1" 2000).
Definition create_message : Request :=
  with_json (JObj [("chatId", JStr "c0"); ("content", JStr "again");
                   ("role", JStr "USER")]) (request "u1" 2000).
Definition start_completion : Request :=
  with_generation ["Hel"; "lo"]
    (with_json (JObj [("chatId", JStr "c0"); ("content", JStr "hello?")])
       (request "u1" 3000)).

(** ListChats and ListMessages by the first user. *)
Definition list_chats (t : DateTime) : Request := request "u1" t.
Definition list_messages (t : DateTime) : Request := with_chatId "c0" (request "u1" t).

(** A CreateMessage whose role is outside the enumeration. *)
Definition moderator : Request :=
  with_json (JObj [("chatId", JStr "c0"); ("content", JStr "x");
                   ("role", JStr "MODERATOR")]) (request "u1" 2000).

(** The second user writes into and reads the chat of the first. *)
Definition intruder_message : Request :=
  with_json (JObj [("chatId", JStr "c0"); ("content", JStr "mine now");
                   ("role", JStr "USER")]) (request "u2" 2000).
Definition intruder_list : Request := with_chatId "c0" (request "u2" 2000).

(** Ten write-class operations of one client within a second, and an
  eleventh seven seconds later. *)
Definition burst : list (WriteOp * Request) :=
  [ (CreateChat, create_chat);
  (CreateMessage, create_message);
  (StartCompletion, start_completion);
  (CreateMessage, at_time 3100 create_message);
  (CreateMessage, at_time 3200 create_message);
  (CreateChat, at_time 3300 create_chat);
  (CreateMessage, at_time 3400 moderator);
  (StartCompletion, at_time 3500 start_completion);
  (CreateMessage, at_time 3600 create_message);
  (CreateChat, at_time 3700 create_chat) ].
Definition eleventh : Request := at_time 9000 create_message.

Definition unreachable : string := "TypeError: fetch failed".

Definition limiter_down : Faults :=
  {| limit_fails := Some unreachable; redis_get_fails := None;
     redis_set_fails := None; redis_del_fails := None; chat_create_fails := None;
     message_create_fails := None; findMany_fails := None |}.
Definition get_down : Faults :=
  {| limit_fails := None; redis_get_fails := Some unreachable;
     redis_set_fails := None; redis_del_fails := None; chat_create_fails := None;
     message_create_fails := None; findMany_fails := None |}.
Definition set_down : Faults :=
  {| limit_fails := None; redis_get_fails := None;
     redis_set_fails := Some unreachable; redis_del_fails := None;
     chat_create_fails := None; message_create_fails := None;
     findMany_fails := None |}.

End Example.

(** ** A list overtaken by a create

    The first user lists (at 2000), misses the cache, reads the store and is
    suspended before [redis.set].  Meanwhile a second list of the same
    caller (2050) runs to its end and writes the entry, and a create (2100)
    runs to its end: it deletes the entry and is acknowledged.  Then the
    first list is resumed (2150), and the caller lists once more (2200). *)
Module Overtaken.

Definition create_chat : Request := Example.at_time 2100 Example.create_chat.
Definition create_message : Request := Example.at_time 2100 Example.create_message.

(** The chats. *)
Definition chats_held : InFlight Chat.t :=
  fst (GET_chat_suspend (Example.list_chats 2000) Example.world).
Definition chats_w1 : World :=
  snd (GET_chat_suspend (Example.list_chats 2000) Example.world).
Definition chats_w2 : World := snd (GET_chat (Example.list_chats 2050) chats_w1).
Definition chats_w3 : World := snd (POST_chat create_chat chats_w2).
Definition chats_w4 : World :=
  snd (GET_chat_resume (Example.list_chats 2150) chats_held chats_w3).



End Overtaken.

(** ** Rows inserted out of order

    The first user has three chats, created at 1000, 3000 and 5000, and the
    chat [c0] three messages, written at 1000, 3000 and 5000; the rows are
    in the tables in another order, among rows of another user and of
    another chat. *)
Module Ordering.

Definition chat (i : string) (t : DateTime) (u : string) : Chat.t :=
  {| Chat.id := i; Chat.createdAt := t; Chat.updatedAt := t; Chat.userId := u;
     Chat.title := Some "New Chat" |}.
Definition message (i : string) (t : DateTime) (c : string) (text : string)
  : Message.t :=
  {| Message.id := i; Message.content := text; Message.role := USER;
     Message.createdAt := t; Message.chatId := c; Message.userId := Some "u1" |}.

Definition m1 : Message.t := message "m1" 1000 "c0" "one".
Definition m2 : Message.t := message "m2" 3000 "c0" "two".
Definition m3 : Message.t := message "m3" 5000 "c0" "three".

Definition world : World :=
  {| db_users := ["u1"; "u2"];
     db_chats := [ chat "c5" 3000 "u1"; chat "c9" 2000 "u2"; chat "c7" 5000 "u1";
                   chat "c0" 1000 "u1" ];
     db_messages := [ m2; message "m9" 2000 "c5" "elsewhere"; m3; m1 ];
     db_seq := 10; redis := ∅; automaticDeserialization := true;
     write_hits := ∅; read_hits := ∅; detached := []; console := [] |}.

End Ordering.

(** ** A completion for a chat that does not exist *)
Module Orphan.
Definition start_completion : Request :=
  Example.with_generation ["Hel"; "lo"]
    (Example.with_json (JObj [("chatId", JStr "nowhere"); ("content", JStr "hello?")])
       (Example.request "u1" 3000)).
End Orphan.

(* ===================================================================== *)
(** * Vocabulary of the further properties *)
(* ===================================================================== *)

(** The limiter each operation consults. *)
Definition limiter_of (op : Operation) : Ratelimit :=
  match op with
  | OpListChats | OpListMessages => getReqRateLimit
  | OpCreateChat | OpCreateMessage | OpStartCompletion => postReqRateLimit
  end.

(** What the limiter says to the request. *)
Definition verdict (rl : Ratelimit) (req : Request) (w : World) : RatelimitResponse :=
  fst (slidingWindow (tokens rl) (window rl)
         (default [] (hits_of (limit_class rl) w !! ip_of req)) (now req)).

(** The limiter is reachable and turns the request away. *)
Definition denied (rl : Ratelimit) (req : Request) (w : World) : Prop :=
  limit_fails (faults req) = None ∧ success (verdict rl req w) = false.

(** The store is the same in both worlds. *)
Definition same_store (w w' : World) : Prop :=
  db_users w' = db_users w ∧ db_chats w' = db_chats w
  ∧ db_messages w' = db_messages w ∧ db_seq w' = db_seq w.

(** Nothing but the windows of the limiter differs between the worlds. *)
Definition untouched (w w' : World) : Prop :=
  same_store w w' ∧ redis w' = redis w
  ∧ automaticDeserialization w' = automaticDeserialization w
  ∧ detached w' = detached w ∧ console w' = console w.

(** ** More requests for the small world *)

Module Cases.

Definition with_session (a : option Session) (req : Request) : Request :=
  {| x_forwarded_for := x_forwarded_for req; auth := a;
     body := body req; searchParams_chatId := searchParams_chatId req;
     generation := generation req; now := now req; faults := faults req |}.

Definition without_body (req : Request) : Request :=
  {| x_forwarded_for := x_forwarded_for req; auth := auth req;
     body := None; searchParams_chatId := searchParams_chatId req;
     generation := generation req; now := now req; faults := faults req |}.

(** The world after the ten operations of [Example.burst]. *)
Definition busy_world : World := snd (run_writes Example.burst Example.world).

(** CreateChat bodies: no message, an empty one, a number. *)
Definition no_message : Request :=
  Example.with_json (JObj []) (Example.request "u1" 2000).
Definition empty_message : Request :=
  Example.with_json (JObj [("message", JStr EmptyString)]) (Example.request "u1" 2000).
Definition numeric_message : Request :=
  Example.with_json (JObj [("message", JNum 7)]) (Example.request "u1" 2000).

(** A CreateMessage into a chat that does not exist. *)
Definition orphan_message : Request :=
  Example.with_json (JObj [("chatId", JStr "nowhere"); ("content", JStr "lost");
                           ("role", JStr "USER")]) (Example.request "u1" 2000).

Definition del_down : Faults :=
  {| limit_fails := None; redis_get_fails := None; redis_set_fails := None;
     redis_del_fails := Some Example.unreachable; chat_create_fails := None;
     message_create_fails := None; findMany_fails := None |}.
Definition message_create_down : Faults :=
  {| limit_fails := None; redis_get_fails := None; redis_set_fails := None;
     redis_del_fails := None; chat_create_fails := None;
     message_create_fails := Some Example.unreachable; findMany_fails := None |}.
Definition findMany_down : Faults :=
  {| limit_fails := None; redis_get_fails := None; redis_set_fails := None;
     redis_del_fails := None; chat_create_fails := None;
     message_create_fails := None; findMany_fails := Some Example.unreachable |}.

End Cases.

(** What a list makes of a cached value [v] that is truthy:
    [typeof v === "string" ? JSON.parse(v) : v]; [None] when the parse
    throws. *)
Definition hit_payload (v : JSON.json) : option JSON.json :=
  match v with
  | JStr text => JSON.parse text
  | v => Some v
  end.

(** ** Histories *)

(** What happens to the world: an operation is called and runs to its end,
    or the generation of the oldest pending completion finishes.  In a
    history the events follow one another: no call begins before the one
    before it has answered (for calls that overlap see [Overtaken]). *)
Inductive Event : Type :=
| Call (op : Operation) (req : Request)
| Finish (env : Request).

Definition step (ev : Event) (w : World) : World :=
  match ev with
  | Call op req => snd (handler op req w)
  | Finish env => finish_generation env w
  end.

Fixpoint run (evs : list Event) (w : World) : World :=
  match evs with
  | [] => w
  | ev :: evs' => run evs' (step ev w)
  end.

(** The [redis.del] of a CreateChat does not throw. *)
Definition del_healthy (ev : Event) : Prop :=
  match ev with
  | Call OpCreateChat req => redis_del_fails (faults req) = None
  | _ => True
  end.

(** Every cached chat list, expired or not, is the serialization of the
    chats its owner has in the store now. *)
Definition chats_coherent (w : World) : Prop :=
  ∀ userId e,
    redis w !! chats_cacheKey userId = Some e →
    value e = stringify (chats_toJSON (chats_of userId (db_chats w))).

(** No colon in a string (as in the ids [cuid()] makes). *)
Fixpoint no_colon (s : string) : bool :=
  match s with
  | EmptyString => true
  | String c s' => negb (Ascii.eqb c ":") && no_colon s'
  end.

Module History.

(** The first user lists the chats, creates one, lists again; a completion
    is started and finishes; the second user lists. *)
Definition events : list Event :=
  [ Call OpListChats (Example.list_chats 2000);
    Call OpCreateChat (Example.at_time 2100 Example.create_chat);
    Call OpListChats (Example.list_chats 2200);
    Call OpStartCompletion Example.start_completion;
    Finish (Example.request "u1" 3500);
    Call OpListChats (Example.request "u2" 3600) ].

End History.

(** A body that is valid JSON but no object, as every schema refuses it. *)
Definition is_object (b : JSON.json) : bool :=
  match b with JObj _ => true | _ => false end.

(* ===================================================================== *)
(** * Facts about [JSON.stringify] and [JSON.parse] *)
(* ===================================================================== *)

Module JSONFacts.

Lemma app_cons c (a b : string) : String c a +:+ b = String c (a +:+ b).
Proof. reflexivity. Qed.
Lemma app_empty (b : string) : EmptyString +:+ b = b.
Proof. reflexivity. Qed.

Lemma append_assoc (a b c : string) : (a +:+ b) +:+ c = a +:+ (b +:+ c).
Proof.
  induction a as [|x a IH]; [done|]. by rewrite !app_cons, IH.
Qed.

Lemma length_append (a b : string) :
  String.length (a +:+ b) = (String.length a + String.length b)%nat.
Proof.
  induction a as [|x a IH]; [done|]. rewrite app_cons. simpl. by rewrite IH.
Qed.

Lemma parse_chars_escape_char c t :
  parse_chars (escape_char c +:+ t)
  = (sr ← parse_chars t; Some (String c (fst sr), snd sr)).
Proof.
  destruct c as [[] [] [] [] [] [] [] []]; reflexivity.
Qed.

Lemma parse_chars_escape s rest :
  parse_chars (escape s +:+ String dquote rest) = Some (s, rest).
Proof.
  induction s as [|c s IH]; [done|].
  cbn [escape]. rewrite append_assoc, parse_chars_escape_char, IH. done.
Qed.

Lemma parse_chars_quote s rest :
  parse_chars (escape s +:+ String dquote EmptyString +:+ rest) = Some (s, rest).
Proof. apply parse_chars_escape. Qed.

(** Numbers *)

Lemma is_digit_pretty_N_char d :
  (d < 10)%N → is_digit (pretty_N_char d) = true ∧ digit_val (pretty_N_char d) = d.
Proof.
  intros Hd.
  assert (d = 0 ∨ d = 1 ∨ d = 2 ∨ d = 3 ∨ d = 4 ∨ d = 5 ∨ d = 6 ∨ d = 7
          ∨ d = 8 ∨ d = 9)%N as Hcases by lia.
  repeat (destruct Hcases as [->|Hcases]; [by split|]). by subst.
Qed.

Lemma read_digits_pretty_N_go x s :
  read_digits 0 (pretty_N_go x s) = read_digits x s.
Proof.
  revert s. induction (N.lt_wf_0 x) as [x _ IH]; intros s.
  destruct (decide (0 < x)%N) as [Hx|Hx].
  - rewrite pretty_N_go_step by done.
    rewrite IH by (apply N.div_lt; lia).
    cbn [read_digits].
    destruct (is_digit_pretty_N_char (x `mod` 10)) as [-> ->].
    { apply N.mod_lt; lia. }
    f_equal. pose proof (N.div_mod x 10). lia.
  - assert (x = 0%N) as -> by lia. by rewrite pretty_N_go_0.
Qed.

Lemma pretty_N_go_app x s t : pretty_N_go x s +:+ t = pretty_N_go x (s +:+ t).
Proof.
  revert s. induction (N.lt_wf_0 x) as [x _ IH]; intros s.
  destruct (decide (0 < x)%N) as [Hx|Hx].
  - rewrite (pretty_N_go_step x s), (pretty_N_go_step x (s +:+ t)) by done.
    rewrite IH by (apply N.div_lt; lia). reflexivity.
  - assert (x = 0%N) as -> by lia. by rewrite !pretty_N_go_0.
Qed.

Lemma pretty_N_go_head x s :
  (0 < x)%N →
  ∃ c t, pretty_N_go x s = String c t ∧ is_digit c = true
         ∧ Ascii.eqb c "0" = false
         ∧ read_digits (digit_val c) t = read_digits x s.
Proof.
  revert s. induction (N.lt_wf_0 x) as [x _ IH]; intros s Hx.
  rewrite pretty_N_go_step by done.
  destruct (decide (0 < x `div` 10)%N) as [Hd|Hd].
  - assert (x `div` 10 < x)%N as Hlt by (apply N.div_lt; lia).
    destruct (IH (x `div` 10)%N Hlt (String (pretty_N_char (x `mod` 10)) s) Hd)
      as (c & t & -> & Hc & Hz & Hr).
    exists c, t. split_and!; [done..|].
    rewrite Hr. cbn [read_digits].
    destruct (is_digit_pretty_N_char (x `mod` 10)) as [-> ->].
    { apply N.mod_lt; lia. }
    f_equal. pose proof (N.div_mod x 10). lia.
  - assert (x `div` 10 = 0)%N as Hq.
    { destruct (x `div` 10)%N; [done|lia]. }
    rewrite Hq, pretty_N_go_0.
    assert (x `mod` 10 = x)%N as Hm.
    { pose proof (N.div_mod x 10). lia. }
    rewrite Hm.
    assert (x < 10)%N as Hlt.
    { rewrite <- Hm. apply N.mod_lt; lia. }
    exists (pretty_N_char x), s.
    destruct (is_digit_pretty_N_char x Hlt) as [Hdig Hval].
    split_and!; [done|done| |by rewrite Hval].
    assert (x = 1 ∨ x = 2 ∨ x = 3 ∨ x = 4 ∨ x = 5 ∨ x = 6 ∨ x = 7
          ∨ x = 8 ∨ x = 9)%N as Hcases by lia.
    repeat (destruct Hcases as [->|Hcases]; [done|]). by subst.
Qed.

Lemma read_digits_ends acc r :
  number_ends r = true → read_digits acc r = (acc, r).
Proof.
  destruct r as [|c r]; [done|]. cbn [number_ends read_digits].
  destruct (is_digit c); [done|done].
Qed.

Lemma parse_nat_pretty (n : N) rest :
  number_ends rest = true →
  parse_nat (pretty n +:+ rest) = Some (n, rest).
Proof.
  intros Hrest. unfold pretty, pretty_N.
  destruct (decide (n = 0%N)) as [->|Hn].
  - rewrite app_cons, app_empty. cbn. by rewrite Hrest.
  - rewrite pretty_N_go_app, app_empty.
    destruct (pretty_N_go_head n rest) as (c & t & -> & Hc & Hz & Hr); [lia|].
    unfold parse_nat. rewrite Hc, Hz. cbn [negb].
    rewrite Hr, read_digits_ends by done. cbn [snd]. by rewrite Hrest.
Qed.

Lemma parse_number_pretty (z : Z) rest :
  number_ends rest = true →
  parse_number (pretty z +:+ rest) = Some (z, rest).
Proof.
  intros Hrest. destruct z as [|p|p].
  - change (pretty 0 +:+ rest) with (String "0" rest).
    cbn. by rewrite Hrest.
  - change (pretty (Z.pos p) +:+ rest) with (pretty (N.pos p) +:+ rest).
    pose proof (parse_nat_pretty (N.pos p) rest Hrest) as Hp.
    destruct (pretty (N.pos p) +:+ rest) as [|c r] eqn:E; [done|].
    unfold parse_number.
    destruct (Ascii.eqb c "-") eqn:Ec.
    + apply Ascii.eqb_eq in Ec as ->. done.
    + rewrite Hp. done.
  - change (pretty (Z.neg p) +:+ rest)
      with (String "-" (pretty (N.pos p) +:+ rest)).
    unfold parse_number. change (Ascii.eqb "-" "-") with true. cbv iota.
    rewrite (parse_nat_pretty (N.pos p) rest Hrest). done.
Qed.




Lemma digit_cases c :
  is_digit c = true →
  is_ws c = false ∧ Ascii.eqb c "n" = false ∧ Ascii.eqb c "t" = false
  ∧ Ascii.eqb c "f" = false ∧ Ascii.eqb c dquote = false
  ∧ Ascii.eqb c "[" = false ∧ Ascii.eqb c "{" = false
  ∧ Ascii.eqb c "]" = false ∧ Ascii.eqb c "}" = false.
Proof.
  destruct c as [[] [] [] [] [] [] [] []]; intros H; try discriminate H;
    repeat split.
Qed.

Lemma pretty_Z_head (z : Z) :
  ∃ c r, pretty z = String c r ∧ (is_digit c = true ∨ c = "-"%char).
Proof.
  destruct z as [|p|p].
  - exists "0"%char, EmptyString. by split; [|left].
  - change (pretty (Z.pos p)) with (pretty (N.pos p)).
    unfold pretty, pretty_N. rewrite decide_False by done.
    destruct (pretty_N_go_head (N.pos p) EmptyString) as (c & t & -> & Hc & _);
      [lia|]. exists c, t. by split; [|left].
  - exists "-"%char, (pretty (N.pos p)). by split; [|right].
Qed.


Lemma stringify_head v : ∃ c r, stringify v = String c r ∧ value_start c = true.
Proof.
  destruct v as [|[]|n|s|l|l]; try (by eexists _, _).
  destruct (pretty_Z_head n) as (c & r & E & [Hc| ->]).
  - exists c, r. split; [done|].
    destruct (digit_cases c Hc) as (H1 & _ & _ & _ & _ & _ & _ & H2 & H3).
    unfold value_start. by rewrite H1, H2, H3.
  - by exists "-"%char, r.
Qed.

Lemma skip_ws_start c r : value_start c = true → skip_ws (String c r) = String c r.
Proof.
  unfold value_start. cbn [skip_ws]. by destruct (is_ws c).
Qed.

Ltac norm_app :=
  repeat (rewrite app_cons || rewrite append_assoc || rewrite app_empty).

Section elements.
Variable pv : string → option (JSON.json * string).
Let ok (v : JSON.json) : Prop :=
  ∀ rest, number_ends rest = true → pv (stringify v +:+ rest) = Some (v, rest).

Lemma parse_elements_stringify l n rest :
    l ≠ [] → (length l ≤ n)%nat → Forall ok l →
    parse_elements pv n (join_comma (List.map stringify l) +:+ String "]" rest)
    = Some (l, rest).
  Proof.
    revert n. induction l as [|v l IH]; intros n Hne Hn Hl; [done|].
    destruct n as [|n]; [simpl in Hn; lia|].
    inversion_clear Hl as [|? ? Hv Hl'].
    destruct l as [|v' l].
    - cbn [List.map join_comma parse_elements].
      rewrite Hv by done. reflexivity.
    - change (join_comma (List.map stringify (v :: v' :: l)))
        with (stringify v +:+ String "," (join_comma (List.map stringify (v' :: l)))).
      rewrite append_assoc, app_cons.
      cbn [parse_elements]. rewrite Hv by done.
      cbn [mbind option_bind snd fst skip_ws is_ws].
      change (is_ws ",") with false. cbv iota.
      change (Ascii.eqb "," ",") with true. cbv iota.
      rewrite IH; [done|done| |done]. simpl in Hn |- *. lia.
  Qed.

Lemma parse_members_stringify (l : list (string * JSON.json)) n rest :
    l ≠ [] → (length l ≤ n)%nat → Forall (λ kv, ok (snd kv)) l →
    parse_members pv n
      (join_comma (List.map (λ kv, quote (fst kv) +:+ ":" +:+ stringify (snd kv)) l)
         +:+ String "}" rest)
    = Some (l, rest).
  Proof.
    revert n. induction l as [|[k v] l IH]; intros n Hne Hn Hl; [done|].
    destruct n as [|n]; [simpl in Hn; lia|].
    inversion_clear Hl as [|? ? Hv Hl']. cbn [snd] in Hv.
    destruct l as [|kv' l].
    - cbn [List.map join_comma fst snd].
      unfold quote. norm_app.
      cbn [parse_members skip_ws]. change (is_ws dquote) with false. cbv iota.
      change (Ascii.eqb dquote dquote) with true. cbv iota.
      rewrite parse_chars_escape.
      cbn [mbind option_bind snd fst skip_ws].
      change (is_ws ":") with false. cbv iota.
      change (Ascii.eqb ":" ":") with true. cbv iota.
      rewrite Hv by done. reflexivity.
    - change (join_comma (List.map (λ kv, quote (fst kv) +:+ ":" +:+ stringify (snd kv))
                            ((k, v) :: kv' :: l)))
        with ((quote k +:+ ":" +:+ stringify v) +:+ String ","
                (join_comma (List.map (λ kv, quote (fst kv) +:+ ":" +:+ stringify (snd kv))
                            (kv' :: l)))).
      unfold quote at 1. norm_app.
      cbn [parse_members skip_ws]. change (is_ws dquote) with false. cbv iota.
      change (Ascii.eqb dquote dquote) with true. cbv iota.
      rewrite parse_chars_escape.
      cbn [mbind option_bind snd fst skip_ws].
      change (is_ws ":") with false. cbv iota.
      change (Ascii.eqb ":" ":") with true. cbv iota.
      rewrite Hv by done.
      cbn [mbind option_bind snd fst skip_ws].
      change (is_ws ",") with false. cbv iota.
      change (Ascii.eqb "," ",") with true. cbv iota.
      rewrite IH; [done|done| |done]. simpl in Hn |- *. lia.
  Qed.
End elements.



Lemma length_join_comma (l : list string) :
  Forall (λ s, (1 ≤ String.length s)%nat) l →
  (length l ≤ String.length (join_comma l))%nat.
Proof.
  induction l as [|x l IH]; intros Hl; [done|].
  inversion_clear Hl as [|? ? Hx Hl'].
  destruct l as [|y l]; [simpl; lia|].
  change (join_comma (x :: y :: l)) with (x +:+ String "," (join_comma (y :: l))).
  rewrite length_append. specialize (IH Hl'). simpl in *. lia.
Qed.

Lemma depth_elem (l : list JSON.json) x :
  x ∈ l → (depth x ≤ foldr (λ x n, Nat.max (depth x) n) 0 l)%nat.
Proof.
  induction 1 as [|? ? ? ? IH]; simpl; lia.
Qed.

Lemma depth_member (l : list (string * JSON.json)) kv :
  kv ∈ l → (depth (snd kv) ≤ foldr (λ kv n, Nat.max (depth (snd kv)) n) 0 l)%nat.
Proof.
  induction 1 as [|? ? ? ? IH]; simpl; lia.
Qed.

Lemma parse_value_stringify v :
  ∀ fuel rest, (depth v < fuel)%nat → number_ends rest = true →
  parse_value fuel (stringify v +:+ rest) = Some (v, rest).
Proof.
  induction v as [|b|n|s|l IH|l IH] using json_ind_nested;
    intros [|fuel] rest Hfuel Hrest; try (simpl in Hfuel; lia).
  - reflexivity.
  - destruct b; reflexivity.
  - cbn [stringify].
    pose proof (parse_number_pretty n rest Hrest) as Hp.
    destruct (pretty_Z_head n) as (c & r & E & Hc).
    rewrite E in Hp |- *. rewrite app_cons in Hp |- *.
    cbn [parse_value].
    destruct Hc as [Hc| ->].
    + destruct (digit_cases c Hc) as (H1 & H2 & H3 & H4 & H5 & H6 & H7 & _).
      cbn [skip_ws]. rewrite H1, H2, H3, H4, H5, H6, H7, Hp. done.
    + cbn [skip_ws]. change (is_ws "-") with false. cbv iota.
      change (Ascii.eqb "-" "n") with false.
      change (Ascii.eqb "-" "t") with false.
      change (Ascii.eqb "-" "f") with false.
      change (Ascii.eqb "-" dquote) with false.
      change (Ascii.eqb "-" "[") with false.
      change (Ascii.eqb "-" "{") with false. cbv iota.
      rewrite Hp. done.
  - cbn [stringify]. unfold quote. norm_app.
    cbn [parse_value skip_ws]. change (is_ws dquote) with false. cbv iota.
    change (Ascii.eqb dquote "n") with false.
    change (Ascii.eqb dquote "t") with false.
    change (Ascii.eqb dquote "f") with false.
    change (Ascii.eqb dquote dquote) with true. cbv iota.
    rewrite parse_chars_escape. done.
  - cbn [stringify]. norm_app.
    destruct l as [|v l]; [reflexivity|].
    cbn [parse_value skip_ws]. change (is_ws "[") with false. cbv iota.
    change (Ascii.eqb "[" "n") with false.
    change (Ascii.eqb "[" "t") with false.
    change (Ascii.eqb "[" "f") with false.
    change (Ascii.eqb "[" dquote) with false.
    change (Ascii.eqb "[" "[") with true. cbv iota.
    set (body := join_comma (List.map stringify (v :: l))).
    assert (∃ c r, body = String c r ∧ value_start c = true) as (c & r & Eb & Hc).
    { destruct (stringify_head v) as (c & r & E & Hc). subst body.
      destruct l as [|v' l].
      - by exists c, r.
      - change (join_comma (List.map stringify (v :: v' :: l)))
          with (stringify v +:+ String "," (join_comma (List.map stringify (v' :: l)))).
        rewrite E, app_cons. by eexists _, _. }
    assert (parse_elements (parse_value fuel)
              (String.length (body +:+ String "]" rest)) (body +:+ String "]" rest)
            = Some (v :: l, rest)) as Hel.
    { apply parse_elements_stringify; [done| |].
      - rewrite length_append. subst body.
        etrans; [|apply Nat.le_add_r].
        rewrite <- (length_map stringify (v :: l)) at 1.
        apply length_join_comma, Forall_forall. intros s Hs.
        apply list_elem_of_In, in_map_iff in Hs as (x & <- & _).
        destruct (stringify_head x) as (? & ? & -> & _). simpl. lia.
      - apply Forall_forall. intros x Hx rest' Hrest'.
        rewrite Forall_forall in IH. apply IH; [done| |done].
        pose proof (depth_elem _ _ Hx) as Hd. simpl in Hfuel, Hd. lia. }
    rewrite Eb, app_cons in Hel |- *.
    rewrite skip_ws_start by done.
    unfold value_start in Hc.
    destruct (Ascii.eqb c "]") eqn:Ec; [by destruct (is_ws c)|].
    rewrite Hel. done.
  - cbn [stringify]. norm_app.
    destruct l as [|kv l]; [reflexivity|].
    cbn [parse_value skip_ws]. change (is_ws "{") with false. cbv iota.
    change (Ascii.eqb "{" "n") with false.
    change (Ascii.eqb "{" "t") with false.
    change (Ascii.eqb "{" "f") with false.
    change (Ascii.eqb "{" dquote) with false.
    change (Ascii.eqb "{" "[") with false.
    change (Ascii.eqb "{" "{") with true. cbv iota.
    set (pm := λ kv : string * JSON.json, quote (fst kv) +:+ ":" +:+ stringify (snd kv)).
    set (body := join_comma (List.map pm (kv :: l))).
    assert (∃ r, body = String dquote r) as (r & Eb).
    { subst body. destruct l as [|kv' l].
      - by eexists.
      - change (join_comma (List.map pm (kv :: kv' :: l)))
          with (pm kv +:+ String "," (join_comma (List.map pm (kv' :: l)))).
        unfold pm at 1, quote. rewrite app_cons. by eexists. }
    assert (parse_members (parse_value fuel)
              (String.length (body +:+ String "}" rest)) (body +:+ String "}" rest)
            = Some (kv :: l, rest)) as Hel.
    { apply parse_members_stringify; [done| |].
      - rewrite length_append. subst body.
        etrans; [|apply Nat.le_add_r].
        rewrite <- (length_map pm (kv :: l)) at 1.
        apply length_join_comma, Forall_forall. intros s Hs.
        apply list_elem_of_In, in_map_iff in Hs as (x & <- & _).
        unfold pm, quote. rewrite app_cons. simpl. lia.
      - apply Forall_forall. intros x Hx rest' Hrest'.
        rewrite Forall_forall in IH. apply IH; [done| |done].
        pose proof (depth_member _ _ Hx) as Hd. simpl in Hfuel, Hd. lia. }
    rewrite Eb, app_cons in Hel |- *.
    cbn [skip_ws]. change (is_ws dquote) with false. cbv iota.
    change (Ascii.eqb dquote "}") with false. cbv iota.
    rewrite Hel. done.
Qed.

Lemma depth_le_length v : (depth v ≤ String.length (stringify v))%nat.
Proof.
  induction v as [|b|n|s|l IH|l IH] using json_ind_nested; try (simpl; lia).
  - cbn [stringify depth]. norm_app. cbn [String.length]. rewrite length_append.
    apply le_n_S. etrans; [|apply Nat.le_add_r].
    induction IH as [|x l Hx _ IHl]; [simpl; lia|].
    destruct l as [|y l]; [simpl in *; lia|].
    change (join_comma (List.map stringify (x :: y :: l)))
      with (stringify x +:+ String "," (join_comma (List.map stringify (y :: l)))).
    rewrite length_append. cbn [foldr String.length] in *. lia.
  - cbn [stringify depth]. norm_app. cbn [String.length]. rewrite length_append.
    apply le_n_S. etrans; [|apply Nat.le_add_r].
    induction IH as [|x l Hx _ IHl]; [simpl; lia|].
    set (pm := λ kv : string * JSON.json, quote (fst kv) +:+ ":" +:+ stringify (snd kv)) in *.
    assert (depth (snd x) ≤ String.length (pm x))%nat as Hpm.
    { unfold pm. rewrite !length_append. lia. }
    destruct l as [|y l]; [simpl in *; lia|].
    change (join_comma (List.map pm (x :: y :: l)))
      with (pm x +:+ String "," (join_comma (List.map pm (y :: l)))).
    rewrite length_append. cbn [foldr String.length] in *. lia.
Qed.

(** [JSON.parse(JSON.stringify(v))] is [v]. *)
Lemma parse_stringify v : JSON.parse (stringify v) = Some v.
Proof.
  unfold JSON.parse.
  pose proof (parse_value_stringify v (S (String.length (stringify v))) EmptyString) as H.
  assert (stringify v +:+ EmptyString = stringify v) as E.
  { generalize (stringify v). intros s. induction s as [|c s IHs]; [done|].
    by rewrite app_cons, IHs. }
  rewrite E in H. rewrite H; [done| |done].
  pose proof (depth_le_length v). lia.
Qed.

End JSONFacts.

(* ===================================================================== *)
(** * The routes *)
(* ===================================================================== *)

Import JSONFacts.

(** Symbolic execution of a handler: unfold the monad and the collaborators,
    then decide one branch after the other at the head of the equation. *)

Ltac run_route_in H :=
  cbv beta iota zeta delta
    [POST_chat GET_chat POST_messages GET_messages POST_aiResponse
     try_catch ChatBodySchema_parse bodySchema_parse aiBodySchema_parse
     z_object z_string z_string_optional z_enum_Role req_json
     Ratelimit_limit redis_get redis_set redis_del
     db_chat_create db_message_create db_chat_findMany db_message_findMany
     streamText bind ret throw] in H.

Ltac head_scrutinee t :=
  lazymatch t with
  | match ?s with _ => _ end => head_scrutinee s
  | ?f _ =>
      let s := applied_scrutinee f in
      lazymatch s with
      | tt => t
      | Some ?s' => head_scrutinee s'
      end
  | _ => t
  end
with applied_scrutinee f :=
  lazymatch f with
  | match ?s with _ => _ end => constr:(Some s)
  | ?g _ => applied_scrutinee g
  | _ => constr:(tt)
  end.

Ltac step_in H :=
  lazymatch type of H with
  | ?lhs = _ =>
      let s := head_scrutinee lhs in
      lazymatch s with
      | lhs => fail "no match at the head"
      | _ => destruct s eqn:?; cbv beta iota zeta in H
      end
  end.


Ltac world_simpl :=
  cbn [db_users db_chats db_messages db_seq redis automaticDeserialization
       write_hits read_hits detached console
       with_db_chats with_db_messages with_redis with_write_hits with_read_hits
       with_detached with_hits console_error console_log hits_of
       limit_class tokens window postReqRateLimit getReqRateLimit
       Chat.id Chat.userId Chat.createdAt Chat.updatedAt Chat.title
       Message.id Message.content Message.role Message.createdAt
       Message.chatId Message.userId
       task_text task_chatId task_userId
       success limit reset remaining value expires_at
       status_of ok_json error_json too_many_requests fst snd] in *.

(** ** The store queries *)

#[global] Instance chat_desc_total : Total chat_desc.
Proof. intros a b. unfold chat_desc. lia. Qed.
#[global] Instance message_asc_total : Total message_asc.
Proof. intros a b. unfold message_asc. lia. Qed.
#[global] Instance chat_desc_trans : Transitive chat_desc.
Proof. intros a b c. unfold chat_desc. lia. Qed.
#[global] Instance message_asc_trans : Transitive message_asc.
Proof. intros a b c. unfold message_asc. lia. Qed.

Lemma chats_of_Permutation u l :
  chats_of u l ≡ₚ List.filter (λ c, String.eqb (Chat.userId c) u) l.
Proof. apply merge_sort_Permutation. Qed.

Lemma messages_of_Permutation c l :
  messages_of c l ≡ₚ List.filter (λ m, String.eqb (Message.chatId m) c) l.
Proof. apply merge_sort_Permutation. Qed.

Lemma chats_of_Sorted u l : Sorted chat_desc (chats_of u l).
Proof. apply (Sorted_merge_sort chat_desc). Qed.

Lemma messages_of_Sorted c l : Sorted message_asc (messages_of c l).
Proof. apply (Sorted_merge_sort message_asc). Qed.





(** ** The cache *)


Lemma cache_lookup_with_hits c h key t w :
  cache_lookup key t (with_hits c h w) = cache_lookup key t w.
Proof. by destruct c. Qed.


(** ** Write-invalidate: a create deletes the owner's cache entry *)







(** ** The completion persists without invalidating *)

(** Whatever [onFinish] does, it leaves the cache store as it was. *)
Lemma onFinish_redis t req w : redis (onFinish t req w) = redis w.
Proof.
  unfold onFinish, db_message_create.
  repeat case_match; simplify_eq; reflexivity.
Qed.

(** C2 (the code departs from the claim).  [onFinish] persists the assistant
    text with [db.message.create] alone; it never touches the cache store, so
    it does not delete the entry of (owner, messages, chat) as CreateMessage
    does.  In the example the first user lists the messages of the chat (the
    entry is written), starts a completion that yields "Hel", "lo" and
    finishes; the store then holds the ASSISTANT message "Hello", the entry
    is the one written before, and a list within its time to live answers
    [cached = true] with the snapshot from before the persistence. *)
Theorem completion_persist_leaves_cache_entry :
  (∀ (t : Task) (env : Request) (w : World), redis (onFinish t env w) = redis w)
  ∧ let w1 := snd (GET_messages (Example.list_messages 2000) Example.world) in
    let w2 := snd (POST_aiResponse Example.start_completion w1) in
    let w3 := finish_generation (Example.request "u1" 3500) w2 in
    let assistant :=
      {| Message.id := "c2"; Message.content := "Hello"; Message.role := ASSISTANT;
         Message.createdAt := 3500; Message.chatId := "c0";
         Message.userId := Some "u1" |} in
    fst (POST_aiResponse Example.start_completion w1) = DataStreamResponse ["Hel"; "lo"]
    ∧ db_messages w3 = [Example.message0; assistant]
    ∧ redis w3 !! messages_cacheKey "u1" "c0" = redis w1 !! messages_cacheKey "u1" "c0"
    ∧ is_Some (redis w3 !! messages_cacheKey "u1" "c0")
    ∧ fst (GET_messages (Example.list_messages 4000) w3)
      = ok_json (JObj [("messages", messages_toJSON [Example.message0]);
                       ("cached", JBool true)]).
Proof.
  split; [apply onFinish_redis|].
  cbv zeta. split_and!.
  - vm_compute; reflexivity.
  - vm_compute; reflexivity.
  - vm_compute; reflexivity.
  - vm_compute. eexists; reflexivity.
  - vm_compute; reflexivity.
Qed.

(** ** A limiter that cannot be reached *)

(** Against C7 as stated: with the limiter unreachable, CreateChat and
    ListMessages answer with status 500, not with the 429 of a rate-limited
    request. *)
Lemma limiter_failure_not_rate_limited :
  status_of (fst (POST_chat (Example.with_faults Example.limiter_down Example.create_chat)
                    Example.world)) = 500
  ∧ status_of (fst (GET_messages
                      (Example.with_faults Example.limiter_down
                         (Example.list_messages 2000))
                      Example.world)) = 500.
Proof. split; vm_compute; reflexivity. Qed.

(** C7, amended.  When the admission check throws, each of the five operations
    is rejected without running anything behind the check (the world is the
    one before, with the error on the console), and the rejection is the
    server-fault answer of the [catch] block: status 500, the error tagged
    with the operation. *)
Theorem limiter_failure_is_server_fault (op : Operation) (req : Request) (w : World)
    (e : string) :
  limit_fails (faults req) = Some e →
  handler op req w = (server_fault op e, console_error e w).
Proof.
  intros He. destruct op; cbn [handler];
    cbv beta iota zeta delta
      [POST_chat GET_chat POST_messages GET_messages POST_aiResponse
       try_catch Ratelimit_limit bind];
    rewrite He; reflexivity.
Qed.

Lemma limiter_failure_is_server_fault_witness :
  limit_fails (faults (Example.with_faults Example.limiter_down Example.create_chat))
    = Some Example.unreachable
  ∧ handler OpCreateChat
      (Example.with_faults Example.limiter_down Example.create_chat) Example.world
    = (server_fault OpCreateChat Example.unreachable,
       console_error Example.unreachable Example.world).
Proof.
  split; [reflexivity|].
  apply (limiter_failure_is_server_fault OpCreateChat
           (Example.with_faults Example.limiter_down Example.create_chat)
           Example.world Example.unreachable).
  reflexivity.
Defined.

(** ** Admission *)

(** Run the limiter of an admitted request. *)

Ltac admitted_in Hadm Hrun :=
  let Hlf := fresh "Hlf" in
  let Hs := fresh "Hs" in
  destruct Hadm as [Hlf Hs];
  rewrite Hlf in Hrun; cbv beta iota zeta in Hrun;
  step_in Hrun;
  match goal with
  | Heq : slidingWindow _ _ _ _ = (_, _) |- _ =>
      try rewrite Heq in Hs; cbn [fst] in Hs; rewrite Hs in Hrun;
      cbn [negb] in Hrun; cbv beta iota zeta in Hrun
  end.

(** ** A cache store that fails during a list *)

(** Against C3 as stated: with a [get] that throws, ListChats answers with
    status 500 and not with the rows of the store. *)
Lemma list_fails_on_cache_failure :
  let req := Example.with_faults Example.get_down (Example.list_chats 2000) in
  status_of (fst (GET_chat req Example.world)) = 500
  ∧ fst (GET_chat req Example.world)
    ≠ ok_json (JObj [("chats", chats_toJSON (chats_of "u1" (db_chats Example.world)));
                     ("cached", JBool false)]).
Proof. split; vm_compute; [reflexivity|discriminate]. Qed.

(** C3, amended.  A failure of the cache store fails the list: when the [get]
    throws, or when the [get] misses, the store returns the rows and the
    [set] throws, ListChats and ListMessages answer with the server fault of
    their [catch] block (status 500, the error tagged with the operation). *)
Theorem cache_failure_fails_list (req : Request) (w : World) (u : User) (e : string) :
  admitted getReqRateLimit req w →
  session_user req = Some u →
  (cache_fails (chats_cacheKey (id u)) req w e →
   fst (GET_chat req w) = server_fault OpListChats e)
  ∧ (∀ chatId,
       searchParams_chatId req = Some chatId → chatId ≠ EmptyString →
       cache_fails (messages_cacheKey (id u) chatId) req w e →
       fst (GET_messages req w) = server_fault OpListMessages e).
Proof.
  intros Hadm Hu. split.
  - intros Hfail. destruct (GET_chat req w) as [resp w'] eqn:Hrun. cbn [fst].
    run_route_in Hrun. admitted_in Hadm Hrun. rewrite Hu in Hrun.
    destruct Hfail as [Hget|(Hget & Hmiss & Hfind & Hset)];
      rewrite Hget in Hrun; cbv beta iota zeta in Hrun.
    + by simplify_eq.
    + unfold cache_miss in Hmiss.
      rewrite cache_lookup_with_hits, Hmiss, Hfind, Hset in Hrun.
      cbv beta iota zeta in Hrun. by simplify_eq.
  - intros chatId Hq Hne Hfail.
    destruct (GET_messages req w) as [resp w'] eqn:Hrun. cbn [fst].
    run_route_in Hrun. admitted_in Hadm Hrun. rewrite Hu, Hq in Hrun.
    assert (String.eqb chatId EmptyString = false) as Hne'.
    { by apply String.eqb_neq. }
    rewrite Hne' in Hrun.
    destruct Hfail as [Hget|(Hget & Hmiss & Hfind & Hset)];
      rewrite Hget in Hrun; cbv beta iota zeta in Hrun.
    + by simplify_eq.
    + unfold cache_miss in Hmiss.
      rewrite cache_lookup_with_hits, Hmiss, Hfind, Hset in Hrun.
      cbv beta iota zeta in Hrun. by simplify_eq.
Qed.

Lemma cache_failure_fails_list_witness :
  let req := Example.with_faults Example.set_down (Example.list_messages 2000) in
  (admitted getReqRateLimit req Example.world
   ∧ session_user req = Some {| id := "u1" |}
   ∧ cache_fails (messages_cacheKey "u1" "c0") req Example.world Example.unreachable)
  ∧ fst (GET_messages req Example.world) = server_fault OpListMessages Example.unreachable.
Proof.
  cbv zeta.
  assert (admitted getReqRateLimit
            (Example.with_faults Example.set_down (Example.list_messages 2000))
            Example.world) as Hadm.
  { split; vm_compute; reflexivity. }
  assert (cache_fails (messages_cacheKey "u1" "c0")
            (Example.with_faults Example.set_down (Example.list_messages 2000))
            Example.world Example.unreachable) as Hfail.
  { right. split_and!; vm_compute; reflexivity. }
  split; [split_and!; [exact Hadm|reflexivity|exact Hfail]|].
  refine (proj2 (cache_failure_fails_list _ Example.world {| id := "u1" |}
                   Example.unreachable Hadm eq_refl) "c0" eq_refl _ Hfail).
  discriminate.
Defined.

(** ** A role outside the enumeration *)

(** Against C5 as stated: the role MODERATOR is answered with the server fault
    of the [catch] block (status 500), not with a validation answer
    (status 400). *)
Lemma moderator_is_server_fault :
  fst (POST_messages Example.moderator Example.world)
  = server_fault OpCreateMessage "ZodError: role: Invalid enum value"
  ∧ status_of (fst (POST_messages Example.moderator Example.world)) ≠ 400.
Proof. split; vm_compute; [reflexivity|discriminate]. Qed.

(** C5, amended.  A CreateMessage whose [role] is not one of USER, ASSISTANT,
    SYSTEM is rejected before the store is touched (no chat, no message, no
    identifier is created, and the cache is left alone); the rejection is the
    server fault of the [catch] block, status 500, tagged [[MESSAGES_POST]]
    and carrying the text of the schema error. *)
Theorem invalid_role_is_rejected_untouched (req : Request) (w : World) (u : User)
    (b : JSON.json) :
  admitted postReqRateLimit req w →
  session_user req = Some u →
  body req = Some b →
  role_in_enum b = false →
  ∃ e, fst (POST_messages req w) = server_fault OpCreateMessage e
       ∧ db_chats (snd (POST_messages req w)) = db_chats w
       ∧ db_messages (snd (POST_messages req w)) = db_messages w
       ∧ db_seq (snd (POST_messages req w)) = db_seq w
       ∧ redis (snd (POST_messages req w)) = redis w.
Proof.
  intros Hadm Hu Hbody Hrole.
  destruct (POST_messages req w) as [resp w'] eqn:Hrun. cbn [fst snd].
  run_route_in Hrun. admitted_in Hadm Hrun. rewrite Hu, Hbody in Hrun.
  cbv beta iota zeta in Hrun. unfold role_in_enum in Hrole.
  repeat step_in Hrun; simplify_eq; try discriminate Hrole;
    try (eexists; split_and!; reflexivity).
Qed.

Lemma invalid_role_is_rejected_untouched_witness :
  (admitted postReqRateLimit Example.moderator Example.world
   ∧ session_user Example.moderator = Some {| id := "u1" |}
   ∧ role_in_enum (JObj [("chatId", JStr "c0"); ("content", JStr "x");
                         ("role", JStr "MODERATOR")]) = false)
  ∧ ∃ e, fst (POST_messages Example.moderator Example.world)
         = server_fault OpCreateMessage e
         ∧ db_chats (snd (POST_messages Example.moderator Example.world))
           = db_chats Example.world
         ∧ db_messages (snd (POST_messages Example.moderator Example.world))
           = db_messages Example.world
         ∧ db_seq (snd (POST_messages Example.moderator Example.world))
           = db_seq Example.world
         ∧ redis (snd (POST_messages Example.moderator Example.world))
           = redis Example.world.
Proof.
  assert (admitted postReqRateLimit Example.moderator Example.world) as Hadm.
  { split; vm_compute; reflexivity. }
  split; [split_and!; [exact Hadm|reflexivity|reflexivity]|].
  exact (invalid_role_is_rejected_untouched Example.moderator Example.world
           {| id := "u1" |} _ Hadm eq_refl eq_refl eq_refl).
Defined.

(** ** The completion pipeline *)

Lemma concat_empty_r (s : string) : s +:+ EmptyString = s.
Proof. induction s as [|c s IH]; [done|]. by rewrite app_cons, IH. Qed.

(** The text handed to [onFinish] is the fragments joined with nothing
    between them. *)
Lemma full_text_concat (fragments : list string) :
  full_text fragments = String.concat EmptyString fragments.
Proof.
  induction fragments as [|x l IH]; [done|].
  cbn [full_text foldr] in *. fold (full_text l). rewrite IH.
  destruct l as [|y l]; [apply concat_empty_r|].
  cbn [String.concat]. by rewrite app_empty.
Qed.

(** A completion whose chat does not exist: the fragments are streamed, the
    text is not empty, the generation finishes, and no message has been
    persisted; the refusal of the store is on the console and nowhere
    else. *)
Lemma orphan_completion_persists_nothing :
  let req := Orphan.start_completion in
  let w1 := snd (POST_aiResponse req Example.world) in
  let w2 := finish_generation (Example.request "u1" 3500) w1 in
  fst (POST_aiResponse req Example.world) = DataStreamResponse ["Hel"; "lo"]
  ∧ String.concat EmptyString (generation req) = "Hello"
  ∧ length (detached w1) = 1%nat ∧ detached w2 = []
  ∧ db_messages w2 = [Example.message0]
  ∧ length (console w2) = 1%nat.
Proof. cbv zeta. split_and!; vm_compute; reflexivity. Qed.

(** C4.  StartCompletion answers with the stream of the fragments of the
    generation, in order, persists nothing itself and leaves one [onFinish]
    behind.  When the generation has finished, [onFinish] appends exactly one
    message (role ASSISTANT, content the fragments joined, the given chat,
    the caller as author) if that text is not empty and the store accepts the
    row; if the store refuses the row (the create fails, or the chat or the
    user does not exist) the tables stay as they are; and if the text is
    empty it changes nothing at all. *)
Theorem completion_streams_and_persists (req : Request) (w : World) (u : User)
    (o : list (string * JSON.json)) (chatId content : string) :
  admitted postReqRateLimit req w →
  session_user req = Some u →
  body req = Some (JObj o) →
  assoc "chatId" o = Some (JStr chatId) →
  assoc "content" o = Some (JStr content) →
  let text := String.concat EmptyString (generation req) in
  let w1 := snd (POST_aiResponse req w) in
  fst (POST_aiResponse req w) = DataStreamResponse (generation req)
  ∧ same_store w w1
  ∧ ∃ task,
      detached w1 = (detached w ++ [task])%list
      ∧ ∀ env w2,
          (text ≠ EmptyString →
           message_create_fails (faults env) = None →
           chat_exists chatId w2 = true → user_exists (id u) w2 = true →
           db_messages (onFinish task env w2)
           = (db_messages w2
              ++ [ {| Message.id := cuid (db_seq w2); Message.content := text;
                      Message.role := ASSISTANT; Message.createdAt := now env;
                      Message.chatId := chatId; Message.userId := Some (id u) |} ])%list)
          ∧ (text ≠ EmptyString →
             message_create_fails (faults env) ≠ None
             ∨ chat_exists chatId w2 = false ∨ user_exists (id u) w2 = false →
             same_store w2 (onFinish task env w2))
          ∧ (text = EmptyString → onFinish task env w2 = w2).
Proof.
  intros Hadm Hu Hbody HchatId Hcontent text w1. subst w1.
  destruct (POST_aiResponse req w) as [resp w'] eqn:Hrun. cbn [fst snd].
  run_route_in Hrun. admitted_in Hadm Hrun.
  rewrite Hu, Hbody in Hrun. cbv beta iota zeta in Hrun.
  rewrite HchatId, Hcontent in Hrun. cbv beta iota zeta in Hrun.
  simplify_eq. split_and!; [reflexivity|by repeat split|].
  eexists. split; [reflexivity|].
  cbn [task_text task_chatId task_userId]. rewrite full_text_concat. fold text.
  intros env w2. unfold onFinish, db_message_create.
  cbn [task_text task_chatId task_userId]. split_and!.
  - intros Htext Hfault Hchat Huser.
    apply String.eqb_neq in Htext. rewrite Htext, Hfault, Hchat, Huser.
    reflexivity.
  - intros Htext Hrefused. apply String.eqb_neq in Htext. rewrite Htext.
    cbn [negb].
    destruct (message_create_fails (faults env)) as [e|]; [by repeat split|].
    destruct Hrefused as [?|[Hc|Hus]]; [done|rewrite Hc|rewrite Hus, andb_false_r];
      by repeat split.
  - intros Htext. by rewrite Htext.
Qed.

Lemma completion_streams_and_persists_witness :
  let req := Example.start_completion in
  let w := Example.world in
  (admitted postReqRateLimit req w ∧ session_user req = Some {| id := "u1" |}
   ∧ String.concat EmptyString (generation req) = "Hello")
  ∧ fst (POST_aiResponse req w) = DataStreamResponse ["Hel"; "lo"]
  ∧ db_messages (finish_generation (Example.request "u1" 3500) (snd (POST_aiResponse req w)))
    = [ Example.message0;
        {| Message.id := "c2"; Message.content := "Hello"; Message.role := ASSISTANT;
           Message.createdAt := 3500; Message.chatId := "c0";
           Message.userId := Some "u1" |} ].
Proof.
  cbv zeta.
  assert (admitted postReqRateLimit Example.start_completion Example.world) as Hadm.
  { split; vm_compute; reflexivity. }
  destruct (completion_streams_and_persists Example.start_completion Example.world
              {| id := "u1" |} _ "c0" "hello?" Hadm eq_refl eq_refl eq_refl eq_refl)
    as (Hresp & _ & task & Htask & Hfinish).
  split; [split_and!; [exact Hadm|reflexivity|reflexivity]|]. split; [exact Hresp|].
  unfold finish_generation. rewrite Htask. cbn [Example.world detached app].
  destruct (Hfinish (Example.request "u1" 3500)
              (with_detached [] (snd (POST_aiResponse Example.start_completion
                                        Example.world))))
    as (Hpersist & _ & _).
  etrans; [apply Hpersist|]; try (vm_compute; reflexivity).
  vm_compute; discriminate.
Defined.

(** ** Lists on a miss *)

Lemma GET_messages_miss (req : Request) (w : World) (u : User) (chatId : string) :
  admitted getReqRateLimit req w →
  session_user req = Some u →
  searchParams_chatId req = Some chatId → chatId ≠ EmptyString →
  faults req = no_faults →
  cache_miss (messages_cacheKey (id u) chatId) req w →
  GET_messages req w
  = (ok_json (JObj [("messages", messages_toJSON (messages_of chatId (db_messages w)));
                    ("cached", JBool false)]),
     with_redis
       (<[messages_cacheKey (id u) chatId :=
            {| value := stringify (messages_toJSON (messages_of chatId (db_messages w)));
               expires_at := now req + 300 * 1000 |}]> (redis w))
       (with_read_hits (<[ip_of req := now req :: default [] (read_hits w !! ip_of req)]>
                          (read_hits w)) w)).
Proof.
  intros Hadm Hu Hq Hne Hf Hmiss.
  destruct (GET_messages req w) as [resp w'] eqn:Hrun.
  run_route_in Hrun. admitted_in Hadm Hrun.
  rewrite Hu, Hq in Hrun. apply String.eqb_neq in Hne. rewrite Hne in Hrun.
  rewrite Hf in Hrun. cbn [no_faults redis_get_fails redis_set_fails findMany_fails] in Hrun.
  unfold cache_miss in Hmiss. rewrite cache_lookup_with_hits, Hmiss in Hrun.
  cbv beta iota zeta in Hrun. simplify_eq. world_simpl.
  unfold slidingWindow in *. world_simpl.
  case_match; simplify_eq; world_simpl; try done.
Qed.

Lemma GET_chat_miss (req : Request) (w : World) (u : User) :
  admitted getReqRateLimit req w →
  session_user req = Some u →
  faults req = no_faults →
  cache_miss (chats_cacheKey (id u)) req w →
  GET_chat req w
  = (ok_json (JObj [("chats", chats_toJSON (chats_of (id u) (db_chats w)));
                    ("cached", JBool false)]),
     with_redis
       (<[chats_cacheKey (id u) :=
            {| value := stringify (chats_toJSON (chats_of (id u) (db_chats w)));
               expires_at := now req + 300 * 1000 |}]> (redis w))
       (with_read_hits (<[ip_of req := now req :: default [] (read_hits w !! ip_of req)]>
                          (read_hits w)) w)).
Proof.
  intros Hadm Hu Hf Hmiss.
  destruct (GET_chat req w) as [resp w'] eqn:Hrun.
  run_route_in Hrun. admitted_in Hadm Hrun.
  rewrite Hu in Hrun.
  rewrite Hf in Hrun. cbn [no_faults redis_get_fails redis_set_fails findMany_fails] in Hrun.
  unfold cache_miss in Hmiss. rewrite cache_lookup_with_hits, Hmiss in Hrun.
  cbv beta iota zeta in Hrun. simplify_eq. world_simpl.
  unfold slidingWindow in *. world_simpl.
  case_match; simplify_eq; world_simpl; try done.
Qed.

(** ** No check of the owner of a chat *)

(** C10.  Neither ListMessages nor CreateMessage looks at the owner of the chat.
    Two authenticated callers that list the same chat and both miss the
    cache get the same answer, the messages of the chat as the store orders
    them; and a caller who does not own a chat can append a message to it. *)
Theorem messages_ignore_chat_owner :
  (∀ (req1 req2 : Request) (w : World) (u1 u2 : User) (chatId : string),
     chatId ≠ EmptyString →
     admitted getReqRateLimit req1 w → admitted getReqRateLimit req2 w →
     session_user req1 = Some u1 → session_user req2 = Some u2 →
     searchParams_chatId req1 = Some chatId → searchParams_chatId req2 = Some chatId →
     faults req1 = no_faults → faults req2 = no_faults →
     cache_miss (messages_cacheKey (id u1) chatId) req1 w →
     cache_miss (messages_cacheKey (id u2) chatId) req2 w →
     fst (GET_messages req1 w) = fst (GET_messages req2 w)
     ∧ fst (GET_messages req2 w)
       = ok_json (JObj [("messages",
                         messages_toJSON (messages_of chatId (db_messages w)));
                        ("cached", JBool false)]))
  ∧ (∀ (req : Request) (w : World) (u : User) (chat : Chat.t)
       (o : list (string * JSON.json)) (content : string) (role : Role),
       chat ∈ db_chats w → Chat.userId chat ≠ id u →
       user_exists (id u) w = true →
       admitted postReqRateLimit req w →
       session_user req = Some u →
       faults req = no_faults →
       body req = Some (JObj o) →
       assoc "chatId" o = Some (JStr (Chat.id chat)) →
       assoc "content" o = Some (JStr content) →
       assoc "role" o = Some (JStr (Role_name role)) →
       let message :=
         {| Message.id := cuid (db_seq w); Message.content := content;
            Message.role := role; Message.createdAt := now req;
            Message.chatId := Chat.id chat; Message.userId := Some (id u) |} in
       fst (POST_messages req w) = ok_json (JObj [("message", Message_toJSON message)])
       ∧ db_messages (snd (POST_messages req w)) = (db_messages w ++ [message])%list).
Proof.
  split.
  - intros req1 req2 w u1 u2 chatId Hne Ha1 Ha2 Hu1 Hu2 Hq1 Hq2 Hf1 Hf2 Hm1 Hm2.
    rewrite (GET_messages_miss req1 w u1 chatId), (GET_messages_miss req2 w u2 chatId)
      by done.
    done.
  - intros req w u chat o content role Hchat Hown Huser Hadm Hu Hf Hbody Hc Hcontent
      Hrole message.
    destruct (POST_messages req w) as [resp w'] eqn:Hrun. cbn [fst snd].
    run_route_in Hrun. admitted_in Hadm Hrun.
    rewrite Hu, Hbody in Hrun. cbv beta iota zeta in Hrun.
    rewrite Hc, Hcontent, Hrole in Hrun. cbv beta iota zeta in Hrun.
    assert (Role_of_name (Role_name role) = Some role) as HR by (by destruct role).
    rewrite HR in Hrun. cbv beta iota zeta in Hrun.
    rewrite Hf in Hrun. cbn [no_faults message_create_fails redis_del_fails] in Hrun.
    assert (chat_exists (Chat.id chat)
              (with_hits (limit_class postReqRateLimit)
                 (<[ip_of req:=l]> (hits_of (limit_class postReqRateLimit) w)) w)
            = true) as Hex.
    { unfold chat_exists. world_simpl. apply existsb_exists. exists chat.
      split; [by apply list_elem_of_In|apply String.eqb_refl]. }
    rewrite Hex in Hrun.
    assert (user_exists (id u)
              (with_hits (limit_class postReqRateLimit)
                 (<[ip_of req:=l]> (hits_of (limit_class postReqRateLimit) w)) w)
            = true) as Hux by exact Huser.
    rewrite Hux in Hrun. cbn [andb] in Hrun. cbv beta iota zeta in Hrun. simplify_eq.
    split; reflexivity.
Qed.

Lemma messages_ignore_chat_owner_witness :
  (Example.chat0 ∈ db_chats Example.world
   ∧ Chat.userId Example.chat0 ≠ "u2"
   ∧ admitted postReqRateLimit Example.intruder_message Example.world
   ∧ admitted getReqRateLimit Example.intruder_list Example.world)
  ∧ fst (GET_messages (Example.list_messages 2000) Example.world)
    = fst (GET_messages Example.intruder_list Example.world)
  ∧ db_messages (snd (POST_messages Example.intruder_message Example.world))
    = [ Example.message0;
        {| Message.id := "c2"; Message.content := "mine now"; Message.role := USER;
           Message.createdAt := 2000; Message.chatId := "c0";
           Message.userId := Some "u2" |} ].
Proof.
  assert (Example.chat0 ∈ db_chats Example.world) as Hin by (by left).
  assert (Chat.userId Example.chat0 ≠ "u2") as Hown by discriminate.
  assert (admitted postReqRateLimit Example.intruder_message Example.world) as Hadm.
  { split; vm_compute; reflexivity. }
  assert (admitted getReqRateLimit (Example.list_messages 2000) Example.world) as Ha1.
  { split; vm_compute; reflexivity. }
  assert (admitted getReqRateLimit Example.intruder_list Example.world) as Ha2.
  { split; vm_compute; reflexivity. }
  split; [by split_and!|]. split.
  - refine (proj1 (proj1 messages_ignore_chat_owner
                     (Example.list_messages 2000) Example.intruder_list Example.world
                     {| id := "u1" |} {| id := "u2" |} "c0" _ Ha1 Ha2
                     eq_refl eq_refl eq_refl eq_refl eq_refl eq_refl _ _));
      [discriminate|vm_compute; reflexivity|vm_compute; reflexivity].
  - exact (proj2 (proj2 messages_ignore_chat_owner
                    Example.intruder_message Example.world {| id := "u2" |}
                    Example.chat0 _ "mine now" USER Hin Hown eq_refl Hadm
                    eq_refl eq_refl eq_refl eq_refl eq_refl eq_refl)).
Defined.

(** ** The order of the lists *)

(** In a list sorted by a transitive relation an earlier element is related
    to every later one. *)
Lemma Sorted_lookup {A} (R : relation A) `{!Transitive R} (l : list A) :
  Sorted R l →
  ∀ (i j : nat) (a b : A), (i < j)%nat → l !! i = Some a → l !! j = Some b → R a b.
Proof.
  intros Hs. apply Sorted_StronglySorted in Hs; [|done].
  induction Hs as [|x l _ IH Hall]; intros i j a b Hij Ha Hb; [done|].
  destruct j as [|j]; [lia|]. cbn in Hb.
  destruct i as [|i]; cbn in Ha.
  - simplify_eq. by eapply Forall_lookup_1.
  - apply (IH i j); [lia|done..].
Qed.

(** C8.  On a cache miss ListChats answers with the chats of the caller, each
    row with its five fields, ordered by creation time with the latest
    first, and ListMessages with the messages of the chat, each row with its
    six fields, ordered by creation time with the earliest first.  Three
    rows created at t1 < t2 < t3 come back in exactly that order (the chats
    reversed), in whatever order they were inserted. *)
Theorem list_order :
  (∀ (req : Request) (w : World) (u : User),
     admitted getReqRateLimit req w → session_user req = Some u →
     faults req = no_faults →
     cache_miss (chats_cacheKey (id u)) req w →
     ∃ rows,
       fst (GET_chat req w)
       = NextResponse_json
           (JObj [("chats",
                   JArr (List.map
                           (λ c, JObj [ ("id", JStr (Chat.id c));
                                        ("createdAt", JStr (toISOString (Chat.createdAt c)));
                                        ("updatedAt", JStr (toISOString (Chat.updatedAt c)));
                                        ("userId", JStr (Chat.userId c));
                                        ("title", match Chat.title c with
                                                  | Some s => JStr s
                                                  | None => JNull
                                                  end) ])
                           rows));
                  ("cached", JBool false)]) 200 []
       ∧ rows ≡ₚ List.filter (λ c, String.eqb (Chat.userId c) (id u)) (db_chats w)
       ∧ (∀ (i j : nat) a b,
            (i < j)%nat → rows !! i = Some a → rows !! j = Some b →
            Chat.createdAt b ≤ Chat.createdAt a)
       ∧ ∀ c1 c2 c3,
           Chat.createdAt c1 < Chat.createdAt c2 →
           Chat.createdAt c2 < Chat.createdAt c3 →
           List.filter (λ c, String.eqb (Chat.userId c) (id u)) (db_chats w)
             ≡ₚ [c1; c2; c3] →
           rows = [c3; c2; c1])
  ∧ (∀ (req : Request) (w : World) (u : User) (chatId : string),
       admitted getReqRateLimit req w → session_user req = Some u →
       searchParams_chatId req = Some chatId → chatId ≠ EmptyString →
       faults req = no_faults →
       cache_miss (messages_cacheKey (id u) chatId) req w →
       ∃ rows,
         fst (GET_messages req w)
         = NextResponse_json
             (JObj [("messages",
                     JArr (List.map
                             (λ m, JObj [ ("id", JStr (Message.id m));
                                          ("content", JStr (Message.content m));
                                          ("role", JStr (match Message.role m with
                                                         | USER => "USER"
                                                         | ASSISTANT => "ASSISTANT"
                                                         | SYSTEM => "SYSTEM"
                                                         end));
                                          ("createdAt",
                                           JStr (toISOString (Message.createdAt m)));
                                          ("chatId", JStr (Message.chatId m));
                                          ("userId", match Message.userId m with
                                                     | Some s => JStr s
                                                     | None => JNull
                                                     end) ])
                             rows));
                    ("cached", JBool false)]) 200 []
         ∧ rows ≡ₚ List.filter (λ m, String.eqb (Message.chatId m) chatId) (db_messages w)
         ∧ (∀ (i j : nat) a b,
              (i < j)%nat → rows !! i = Some a → rows !! j = Some b →
              Message.createdAt a ≤ Message.createdAt b)
         ∧ ∀ m1 m2 m3,
             Message.createdAt m1 < Message.createdAt m2 →
             Message.createdAt m2 < Message.createdAt m3 →
             List.filter (λ m, String.eqb (Message.chatId m) chatId) (db_messages w)
               ≡ₚ [m1; m2; m3] →
             rows = [m1; m2; m3]).
Proof.
  split.
  - intros req w u Hadm Hu Hf Hmiss. exists (chats_of (id u) (db_chats w)).
    rewrite (GET_chat_miss req w u) by done.
    split_and!; [reflexivity|apply chats_of_Permutation| |].
    + intros i j a b Hij Ha Hb.
      apply (Sorted_lookup chat_desc _ (chats_of_Sorted (id u) (db_chats w)) i j a b);
        done.
    + intros c1 c2 c3 H12 H23 Hperm.
      apply (Sorted_unique_strong chat_desc).
      * intros x1 x2 Hx1 Hx2 Hle Hge. unfold chat_desc in Hle, Hge.
        rewrite chats_of_Permutation, Hperm in Hx1.
        set_unfold. destruct Hx1 as [->|[->|[->|[]]]], Hx2 as [->|[->|[->|[]]]];
          first [reflexivity|lia].
      * apply chats_of_Sorted.
      * repeat constructor; unfold chat_desc; lia.
      * rewrite chats_of_Permutation, Hperm.
        exact (Permutation_rev [c1; c2; c3]).
  - intros req w u chatId Hadm Hu Hq Hne Hf Hmiss.
    exists (messages_of chatId (db_messages w)).
    rewrite (GET_messages_miss req w u chatId) by done.
    split_and!; [reflexivity|apply messages_of_Permutation| |].
    + intros i j a b Hij Ha Hb.
      apply (Sorted_lookup message_asc _ (messages_of_Sorted chatId (db_messages w))
               i j a b); done.
    + intros m1 m2 m3 H12 H23 Hperm.
      apply (Sorted_unique_strong message_asc).
      * intros x1 x2 Hx1 Hx2 Hle Hge. unfold message_asc in Hle, Hge.
        rewrite messages_of_Permutation, Hperm in Hx1.
        set_unfold. destruct Hx1 as [->|[->|[->|[]]]], Hx2 as [->|[->|[->|[]]]];
          first [reflexivity|lia].
      * apply messages_of_Sorted.
      * repeat constructor; unfold message_asc; lia.
      * by rewrite messages_of_Permutation.
Qed.

Lemma list_order_witness :
  let chats := Example.list_chats 6000 in
  let messages := Example.list_messages 6000 in
  (admitted getReqRateLimit chats Ordering.world
   ∧ cache_miss (chats_cacheKey "u1") chats Ordering.world
   ∧ admitted getReqRateLimit messages Ordering.world
   ∧ cache_miss (messages_cacheKey "u1" "c0") messages Ordering.world
   ∧ List.filter (λ m, String.eqb (Message.chatId m) "c0") (db_messages Ordering.world)
     = [Ordering.m2; Ordering.m3; Ordering.m1])
  ∧ fst (GET_chat chats Ordering.world)
    = NextResponse_json
        (JObj [("chats",
                JArr [ JObj [("id", JStr "c7");
                             ("createdAt", JStr "1970-01-01T00:00:05.000Z");
                             ("updatedAt", JStr "1970-01-01T00:00:05.000Z");
                             ("userId", JStr "u1"); ("title", JStr "New Chat")];
                       JObj [("id", JStr "c5");
                             ("createdAt", JStr "1970-01-01T00:00:03.000Z");
                             ("updatedAt", JStr "1970-01-01T00:00:03.000Z");
                             ("userId", JStr "u1"); ("title", JStr "New Chat")];
                       JObj [("id", JStr "c0");
                             ("createdAt", JStr "1970-01-01T00:00:01.000Z");
                             ("updatedAt", JStr "1970-01-01T00:00:01.000Z");
                             ("userId", JStr "u1"); ("title", JStr "New Chat")] ]);
               ("cached", JBool false)]) 200 []
  ∧ fst (GET_messages messages Ordering.world)
    = NextResponse_json
        (JObj [("messages",
                JArr [ JObj [("id", JStr "m1"); ("content", JStr "one");
                             ("role", JStr "USER");
                             ("createdAt", JStr "1970-01-01T00:00:01.000Z");
                             ("chatId", JStr "c0"); ("userId", JStr "u1")];
                       JObj [("id", JStr "m2"); ("content", JStr "two");
                             ("role", JStr "USER");
                             ("createdAt", JStr "1970-01-01T00:00:03.000Z");
                             ("chatId", JStr "c0"); ("userId", JStr "u1")];
                       JObj [("id", JStr "m3"); ("content", JStr "three");
                             ("role", JStr "USER");
                             ("createdAt", JStr "1970-01-01T00:00:05.000Z");
                             ("chatId", JStr "c0"); ("userId", JStr "u1")] ]);
               ("cached", JBool false)]) 200 [].
Proof.
  cbv zeta.
  assert (admitted getReqRateLimit (Example.list_chats 6000) Ordering.world) as Hadm1.
  { split; vm_compute; reflexivity. }
  assert (cache_miss (chats_cacheKey "u1") (Example.list_chats 6000) Ordering.world)
    as Hmiss1.
  { vm_compute; reflexivity. }
  assert (admitted getReqRateLimit (Example.list_messages 6000) Ordering.world) as Hadm2.
  { split; vm_compute; reflexivity. }
  assert (cache_miss (messages_cacheKey "u1" "c0") (Example.list_messages 6000)
            Ordering.world) as Hmiss2.
  { vm_compute; reflexivity. }
  split; [split_and!; try done; vm_compute; reflexivity|].
  split.
  - destruct (proj1 list_order (Example.list_chats 6000) Ordering.world
                {| id := "u1" |} Hadm1 eq_refl eq_refl Hmiss1)
      as (rows & Hresp & _ & _ & Hthree).
    rewrite Hresp.
    rewrite (Hthree (Ordering.chat "c0" 1000 "u1") (Ordering.chat "c5" 3000 "u1")
               (Ordering.chat "c7" 5000 "u1")).
    + vm_compute; reflexivity.
    + vm_compute; reflexivity.
    + vm_compute; reflexivity.
    + change (List.filter _ (db_chats Ordering.world))
        with [Ordering.chat "c5" 3000 "u1"; Ordering.chat "c7" 5000 "u1";
              Ordering.chat "c0" 1000 "u1"].
      symmetry. exact (Permutation_cons_append [_; _] _).
  - destruct (proj2 list_order (Example.list_messages 6000) Ordering.world
                {| id := "u1" |} "c0" Hadm2 eq_refl eq_refl ltac:(discriminate)
                eq_refl Hmiss2)
      as (rows & Hresp & _ & _ & Hthree).
    rewrite Hresp.
    rewrite (Hthree Ordering.m1 Ordering.m2 Ordering.m3).
    + vm_compute; reflexivity.
    + vm_compute; reflexivity.
    + vm_compute; reflexivity.
    + change (List.filter _ (db_messages Ordering.world))
        with [Ordering.m2; Ordering.m3; Ordering.m1].
      symmetry. exact (Permutation_cons_append [_; _] _).
Defined.

(** ** Two lists in a row *)

Lemma stringify_array_nonempty (l : list JSON.json) :
  String.eqb (stringify (JArr l)) EmptyString = false.
Proof. reflexivity. Qed.

(** A cached snapshot read back within its time to live. *)
Lemma cache_lookup_fresh key (v : JSON.json) (t0 t : DateTime) (r : gmap string CacheEntry)
    (w : World) :
  t < t0 + 300 * 1000 →
  let w1 := with_redis (<[key := {| value := stringify v; expires_at := t0 + 300 * 1000 |}]> r) w in
  cache_lookup key t w1 = deserialize (automaticDeserialization w) (stringify v).
Proof.
  intros Ht w1. unfold cache_lookup. subst w1. world_simpl.
  rewrite lookup_insert_eq. world_simpl.
  by rewrite (proj2 (Z.ltb_lt _ _) Ht).
Qed.

Lemma served_from_cache (auto : bool) (l : list JSON.json) :
  let cached := deserialize auto (stringify (JArr l)) in
  truthy cached = true
  ∧ match cached with
    | JStr text => JSON.parse text
    | v => Some v
    end = Some (JArr l).
Proof.
  unfold deserialize. destruct auto.
  - rewrite parse_stringify. by split.
  - cbn [truthy]. rewrite stringify_array_nonempty, parse_stringify. by split.
Qed.

(** C9.  Two lists in a row by one caller (for messages, of one chat), the first
    missing the cache and the second within 300 seconds of it: the first
    answers [cached = false] and stores the serialized payload under the key
    of the caller, to expire 300 seconds later; the second answers
    [cached = true] with the identical payload, parsing the stored text back
    to the document it was made from. *)
Theorem list_twice_hits_cache :
  (∀ (req1 req2 : Request) (w : World) (u : User),
     admitted getReqRateLimit req1 w → session_user req1 = Some u →
     faults req1 = no_faults →
     cache_miss (chats_cacheKey (id u)) req1 w →
     admitted getReqRateLimit req2 (snd (GET_chat req1 w)) →
     session_user req2 = Some u →
     faults req2 = no_faults →
     now req2 < now req1 + 300 * 1000 →
     ∃ payload,
       fst (GET_chat req1 w)
       = ok_json (JObj [("chats", payload); ("cached", JBool false)])
       ∧ redis (snd (GET_chat req1 w)) !! chats_cacheKey (id u)
         = Some {| value := stringify payload; expires_at := now req1 + 300 * 1000 |}
       ∧ JSON.parse (stringify payload) = Some payload
       ∧ fst (GET_chat req2 (snd (GET_chat req1 w)))
         = ok_json (JObj [("chats", payload); ("cached", JBool true)]))
  ∧ (∀ (req1 req2 : Request) (w : World) (u : User) (chatId : string),
       chatId ≠ EmptyString →
       admitted getReqRateLimit req1 w → session_user req1 = Some u →
       searchParams_chatId req1 = Some chatId →
       faults req1 = no_faults →
       cache_miss (messages_cacheKey (id u) chatId) req1 w →
       admitted getReqRateLimit req2 (snd (GET_messages req1 w)) →
       session_user req2 = Some u →
       searchParams_chatId req2 = Some chatId →
       faults req2 = no_faults →
       now req2 < now req1 + 300 * 1000 →
       ∃ payload,
         fst (GET_messages req1 w)
         = ok_json (JObj [("messages", payload); ("cached", JBool false)])
         ∧ redis (snd (GET_messages req1 w)) !! messages_cacheKey (id u) chatId
           = Some {| value := stringify payload; expires_at := now req1 + 300 * 1000 |}
         ∧ JSON.parse (stringify payload) = Some payload
         ∧ fst (GET_messages req2 (snd (GET_messages req1 w)))
           = ok_json (JObj [("messages", payload); ("cached", JBool true)])).
Proof.
  split.
  - intros req1 req2 w u Hadm1 Hu1 Hf1 Hmiss Hadm2 Hu2 Hf2 Httl.
    exists (chats_toJSON (chats_of (id u) (db_chats w))).
    rewrite (GET_chat_miss req1 w u) in * by done. cbn [fst snd] in *.
    split_and!; [done| |apply parse_stringify|].
    { world_simpl. apply lookup_insert_eq. }
    match goal with |- fst (GET_chat _ ?W) = _ => set (w1 := W) in * end.
    destruct (GET_chat req2 w1) as [resp w'] eqn:Hrun. cbn [fst].
    run_route_in Hrun. admitted_in Hadm2 Hrun. rewrite Hu2, Hf2 in Hrun.
    cbn [no_faults redis_get_fails] in Hrun.
    rewrite cache_lookup_with_hits in Hrun. subst w1.
    rewrite cache_lookup_fresh in Hrun by done. world_simpl.
    destruct (served_from_cache (automaticDeserialization w)
                (List.map Chat_toJSON (chats_of (id u) (db_chats w)))) as [Ht Hv].
    cbv zeta in Ht, Hv. fold (chats_toJSON (chats_of (id u) (db_chats w))) in Ht, Hv.
    rewrite Ht in Hrun.
    destruct (deserialize _ _) as [| | |text| |]; simplify_eq; try done.
    + rewrite Hv in Hrun. by simplify_eq.
    + by rewrite Hv.
  - intros req1 req2 w u chatId Hne Hadm1 Hu1 Hq1 Hf1 Hmiss Hadm2 Hu2 Hq2 Hf2 Httl.
    exists (messages_toJSON (messages_of chatId (db_messages w))).
    rewrite (GET_messages_miss req1 w u chatId) in * by done. cbn [fst snd] in *.
    split_and!; [done| |apply parse_stringify|].
    { world_simpl. apply lookup_insert_eq. }
    match goal with |- fst (GET_messages _ ?W) = _ => set (w1 := W) in * end.
    destruct (GET_messages req2 w1) as [resp w'] eqn:Hrun. cbn [fst].
    run_route_in Hrun. admitted_in Hadm2 Hrun. rewrite Hu2, Hq2, Hf2 in Hrun.
    pose proof Hne as Hne'. apply String.eqb_neq in Hne'. rewrite Hne' in Hrun.
    cbn [no_faults redis_get_fails] in Hrun.
    rewrite cache_lookup_with_hits in Hrun. subst w1.
    rewrite cache_lookup_fresh in Hrun by done. world_simpl.
    destruct (served_from_cache (automaticDeserialization w)
                (List.map Message_toJSON (messages_of chatId (db_messages w))))
      as [Ht Hv].
    cbv zeta in Ht, Hv.
    fold (messages_toJSON (messages_of chatId (db_messages w))) in Ht, Hv.
    rewrite Ht in Hrun.
    destruct (deserialize _ _) as [| | |text| |]; simplify_eq; try done.
    + rewrite Hv in Hrun. by simplify_eq.
    + by rewrite Hv.
Qed.

Lemma list_twice_hits_cache_witness :
  let req1 := Example.list_messages 2000 in
  let req2 := Example.list_messages 2500 in
  (admitted getReqRateLimit req1 Example.world
   ∧ cache_miss (messages_cacheKey "u1" "c0") req1 Example.world
   ∧ admitted getReqRateLimit req2 (snd (GET_messages req1 Example.world))
   ∧ now req2 < now req1 + 300 * 1000)
  ∧ ∃ payload,
      fst (GET_messages req1 Example.world)
      = ok_json (JObj [("messages", payload); ("cached", JBool false)])
      ∧ fst (GET_messages req2 (snd (GET_messages req1 Example.world)))
        = ok_json (JObj [("messages", payload); ("cached", JBool true)]).
Proof.
  cbv zeta.
  assert (admitted getReqRateLimit (Example.list_messages 2000) Example.world) as Ha1.
  { split; vm_compute; reflexivity. }
  assert (cache_miss (messages_cacheKey "u1" "c0") (Example.list_messages 2000)
            Example.world) as Hmiss.
  { vm_compute; reflexivity. }
  assert (admitted getReqRateLimit (Example.list_messages 2500)
            (snd (GET_messages (Example.list_messages 2000) Example.world))) as Ha2.
  { split; vm_compute; reflexivity. }
  assert (now (Example.list_messages 2500)
          < now (Example.list_messages 2000) + 300 * 1000) as Httl.
  { vm_compute; reflexivity. }
  split; [by split_and!|].
  destruct (proj2 list_twice_hits_cache
              (Example.list_messages 2000) (Example.list_messages 2500)
              Example.world {| id := "u1" |} "c0"
              ltac:(discriminate) Ha1 eq_refl eq_refl eq_refl Hmiss
              Ha2 eq_refl eq_refl eq_refl Httl)
    as (payload & H1 & _ & _ & H2).
  exists payload. by split.
Defined.

(** ** Ten write-class operations per ten seconds *)


Lemma slidingWindow_admit hits now :
  (live now hits < 10)%nat →
  ∃ r, slidingWindow 10 (10 * 1000) hits now = (r, now :: hits) ∧ success r = true.
Proof.
  intros Hlive. unfold slidingWindow. fold (live now hits).
  rewrite (proj2 (Z.ltb_lt _ _)) by lia. by eexists.
Qed.

Lemma slidingWindow_reject hits now :
  (10 ≤ live now hits)%nat →
  ∃ resetAt,
    slidingWindow 10 (10 * 1000) hits now
    = ({| success := false; limit := 10; reset := resetAt; remaining := 0 |}, hits).
Proof.
  intros Hlive. unfold slidingWindow. fold (live now hits).
  rewrite (proj2 (Z.ltb_ge _ _)) by lia. by eexists.
Qed.

(** What a write-class handler does with the verdict of the limiter. *)
Lemma run_write_limiter (op : WriteOp) (req : Request) (w : World) :
  limit_fails (faults req) = None →
  let d := slidingWindow 10 (10 * 1000) (default [] (write_hits w !! ip_of req))
             (now req) in
  write_hits (snd (run_write op req w)) = <[ip_of req := snd d]> (write_hits w)
  ∧ (success (fst d) = false → fst (run_write op req w) = too_many_requests (fst d))
  ∧ (success (fst d) = true → status_of (fst (run_write op req w)) ≠ 429).
Proof.
  intros Hlf d.
  destruct (run_write op req w) as [resp w'] eqn:Hrun. cbn [fst snd].
  destruct op; cbn [run_write] in Hrun; run_route_in Hrun;
    rewrite Hlf in Hrun; cbv beta iota zeta in Hrun; world_simpl;
    fold d in Hrun; destruct d as [r hits'] eqn:Hd; world_simpl;
    repeat step_in Hrun; simplify_eq; world_simpl;
    (split_and!; [reflexivity|intros Hs|intros Hs]);
    first [done|by rewrite Hs in *].
Qed.

Lemma live_app now (l1 l2 : list DateTime) :
  live now (l1 ++ l2) = (live now l1 + live now l2)%nat.
Proof. unfold live. by rewrite List.filter_app, length_app. Qed.

Lemma live_le now l : (live now l ≤ length l)%nat.
Proof. apply List.filter_length_le. Qed.

Lemma live_outside now l :
  Forall (λ t, in_window (10 * 1000) now t = false) l → live now l = 0%nat.
Proof.
  unfold live. induction 1 as [|t l Ht _ IH]; [done|].
  cbn [List.filter]. by rewrite Ht.
Qed.

Lemma live_inside now l :
  Forall (λ t, in_window (10 * 1000) now t = true) l → live now l = length l.
Proof.
  unfold live. induction 1 as [|t l Ht _ IH]; [done|].
  cbn [List.filter]. rewrite Ht. simpl. by rewrite IH.
Qed.

Lemma run_writes_admitted (ip : string) (hits0 : list DateTime)
    (ops : list (WriteOp * Request)) :
  ∀ (w : World) (pre : list DateTime),
    default [] (write_hits w !! ip) = (pre ++ hits0)%list →
    Forall (λ x, ip_of (snd x) = ip ∧ limit_fails (faults (snd x)) = None) ops →
    Forall (λ x, Forall (λ t, in_window (10 * 1000) (now (snd x)) t = false) hits0) ops →
    (length pre + length ops ≤ 10)%nat →
    Forall (λ r, status_of r ≠ 429) (fst (run_writes ops w))
    ∧ default [] (write_hits (snd (run_writes ops w)) !! ip)
      = (rev (List.map (λ x, now (snd x)) ops) ++ pre ++ hits0)%list.
Proof.
  induction ops as [|[op req] ops IH]; intros w pre Hhits Hops Hout Hlen.
  { split; [constructor|done]. }
  inversion_clear Hops as [|? ? [Hip Hlf] Hops']. cbn [snd] in Hip, Hlf.
  inversion_clear Hout as [|? ? Hout0 Hout']. cbn [snd] in Hout0.
  cbn [run_writes].
  destruct (run_write_limiter op req w Hlf) as (Hw & _ & Hok).
  destruct (run_write op req w) as [r w1]. cbn [fst snd] in Hw, Hok.
  rewrite Hip, Hhits in Hw, Hok.
  destruct (slidingWindow_admit (pre ++ hits0) (now req)) as (d & Hd & Hs).
  { rewrite live_app, (live_outside _ _ Hout0).
    pose proof (live_le (now req) pre). simpl in Hlen. lia. }
  rewrite Hd in Hw, Hok. cbn [fst snd] in Hw, Hok.
  destruct (IH w1 (now req :: pre)) as [Hall Hhits']; [|done|done| |].
  { by rewrite Hw, lookup_insert_eq. }
  { simpl in *. lia. }
  destruct (run_writes ops w1) as [rs w2]. cbn [fst snd] in *.
  split; [constructor; auto|].
  rewrite Hhits'. cbn [List.map rev snd]. by rewrite <- !app_assoc.
Qed.

(** C6.  For a client whose earlier requests lie outside the windows, up to ten
    write-class operations (CreateChat, CreateMessage, StartCompletion, in any
    mix) are all admitted; and when ten were admitted within the ten seconds
    before an eleventh, the eleventh is answered with status 429 and the body
    [{ error: "Too many requests", limit: 10, reset, remaining: 0 }], the
    same three numbers in the X-RateLimit headers, and nothing behind the
    limiter has run. *)
Theorem write_budget_ten_per_window (ip : string) (w : World)
    (ops : list (WriteOp * Request)) (op : WriteOp) (last : Request) :
  Forall (λ x, ip_of (snd x) = ip ∧ limit_fails (faults (snd x)) = None) ops →
  ip_of last = ip → limit_fails (faults last) = None →
  Forall (λ x, Forall (λ t, in_window (10 * 1000) (now (snd x)) t = false)
                 (default [] (write_hits w !! ip))) ops →
  (length ops ≤ 10)%nat →
  Forall (λ r, status_of r ≠ 429) (fst (run_writes ops w))
  ∧ (length ops = 10%nat →
     Forall (λ x, in_window (10 * 1000) (now last) (now (snd x)) = true) ops →
     ∃ resetAt,
       fst (run_write op last (snd (run_writes ops w)))
       = NextResponse_json
           (JObj [ ("error", JStr "Too many requests"); ("limit", JNum 10);
                   ("reset", JNum resetAt); ("remaining", JNum 0) ])
           429
           [ ("X-RateLimit-Limit", "10"); ("X-RateLimit-Remaining", "0");
             ("X-RateLimit-Reset", pretty resetAt) ]
       ∧ untouched (snd (run_writes ops w))
           (snd (run_write op last (snd (run_writes ops w))))).
Proof.
  intros Hops Hip Hlf Hout Hlen.
  destruct (run_writes_admitted ip (default [] (write_hits w !! ip)) ops w [])
    as [Hall Hhits]; [done|done|done|simpl; lia|].
  split; [done|]. intros Hten Hin.
  set (w1 := snd (run_writes ops w)) in *.
  destruct (slidingWindow_reject
              (rev (List.map (λ x, now (snd x)) ops) ++ [] ++ default [] (write_hits w !! ip))
              (now last)) as (resetAt & Hd).
  { rewrite live_app, live_inside.
    - rewrite length_rev, length_map. lia.
    - apply Forall_forall. intros t Ht.
      apply list_elem_of_In, in_rev, in_map_iff in Ht as (x & <- & Hx).
      rewrite Forall_forall in Hin. by apply Hin, list_elem_of_In. }
  exists resetAt. rewrite <- Hhits, <- Hip in Hd.
  destruct (run_write op last w1) as [resp w'] eqn:Hrun. cbn [fst snd].
  destruct op; cbn [run_write] in Hrun; run_route_in Hrun;
    rewrite Hlf in Hrun; cbv beta iota zeta in Hrun; world_simpl;
    rewrite Hd in Hrun; cbn [success negb] in Hrun; cbv beta iota zeta in Hrun;
    simplify_eq; world_simpl; (split; [reflexivity|]).
  all: repeat split; world_simpl; try reflexivity.
Qed.

Lemma write_budget_ten_per_window_witness :
  (length Example.burst = 10%nat
   ∧ Forall (λ x, ip_of (snd x) = "203.0.113.7" ∧ limit_fails (faults (snd x)) = None)
       Example.burst
   ∧ Forall (λ x, in_window (10 * 1000) (now Example.eleventh) (now (snd x)) = true)
       Example.burst)
  ∧ Forall (λ r, status_of r ≠ 429) (fst (run_writes Example.burst Example.world))
  ∧ fst (run_write CreateMessage Example.eleventh
           (snd (run_writes Example.burst Example.world)))
    = NextResponse_json
        (JObj [ ("error", JStr "Too many requests"); ("limit", JNum 10);
                ("reset", JNum 12000); ("remaining", JNum 0) ])
        429
        [ ("X-RateLimit-Limit", "10"); ("X-RateLimit-Remaining", "0");
          ("X-RateLimit-Reset", "12000") ]
  ∧ db_messages (snd (run_write CreateMessage Example.eleventh
                        (snd (run_writes Example.burst Example.world))))
    = db_messages (snd (run_writes Example.burst Example.world)).
Proof.
  assert (Forall (λ x, ip_of (snd x) = "203.0.113.7"
                       ∧ limit_fails (faults (snd x)) = None) Example.burst) as Hops.
  { repeat constructor. }
  assert (Forall (λ x, in_window (10 * 1000) (now Example.eleventh) (now (snd x)) = true)
            Example.burst) as Hin.
  { repeat constructor. }
  assert (Forall (λ x, Forall (λ t, in_window (10 * 1000) (now (snd x)) t = false)
                         (default [] (write_hits Example.world !! "203.0.113.7")))
            Example.burst) as Hout.
  { repeat constructor. }
  destruct (write_budget_ten_per_window "203.0.113.7" Example.world Example.burst
              CreateMessage Example.eleventh Hops eq_refl eq_refl Hout)
    as [Hall Hrej].
  { simpl. lia. }
  split; [by split_and!|]. split; [exact Hall|].
  destruct (Hrej eq_refl Hin) as (resetAt & Hresp & Hsame).
  split; [|apply Hsame].
  vm_compute; reflexivity.
Defined.

(* ===================================================================== *)
(** * Further properties of the routes *)
(* ===================================================================== *)

Ltac denied_in Hden Hrun :=
  let Hlf := fresh "Hlf" in
  let Hs := fresh "Hs" in
  destruct Hden as [Hlf Hs]; unfold verdict in Hs;
  rewrite Hlf in Hrun; cbv beta iota zeta in Hrun;
  step_in Hrun;
  match goal with
  | Heq : slidingWindow _ _ _ _ = (_, _) |- _ =>
      try rewrite Heq in Hs; cbn [fst] in Hs; rewrite Hs in Hrun;
      cbn [negb] in Hrun; cbv beta iota zeta in Hrun
  end.

Ltac untouched_done :=
  unfold untouched, same_store; world_simpl; split_and!; reflexivity.

(** ** Rejections before the delegate *)

(** X1.  An admitted request without a session user is answered 401
    Unauthorized by each of the five operations, and nothing but the window
    of the limiter has changed: store, cache, pending completions and
    console are as before. *)
Theorem unauthenticated_is_401 (op : Operation) (req : Request) (w : World) :
  admitted (limiter_of op) req w →
  session_user req = None →
  fst (handler op req w) = error_json "Unauthorized" 401
  ∧ untouched w (snd (handler op req w)).
Proof.
  intros Hadm Hu.
  destruct (handler op req w) as [resp w'] eqn:Hrun. cbn [fst snd].
  destruct op; cbn [handler limiter_of] in Hrun, Hadm; run_route_in Hrun;
    admitted_in Hadm Hrun; rewrite Hu in Hrun; simplify_eq;
    (split; [reflexivity|untouched_done]).
Qed.

Lemma unauthenticated_is_401_witness :
  let req := Cases.with_session None Example.create_message in
  (admitted (limiter_of OpCreateMessage) req Example.world ∧ session_user req = None)
  ∧ fst (handler OpCreateMessage req Example.world) = error_json "Unauthorized" 401
  ∧ untouched Example.world (snd (handler OpCreateMessage req Example.world)).
Proof.
  cbv zeta.
  assert (admitted (limiter_of OpCreateMessage)
            (Cases.with_session None Example.create_message) Example.world) as Hadm.
  { split; vm_compute; reflexivity. }
  split; [by split|].
  exact (unauthenticated_is_401 OpCreateMessage _ Example.world Hadm eq_refl).
Defined.

(** X2.  A request the limiter turns away is answered 429 by each of the five
    operations, before the session is looked at: the answer carries the
    limit, the remaining budget and the reset instant of the verdict in its
    body and in the X-RateLimit headers, and nothing but the window of the
    limiter has changed. *)
Theorem rate_limited_touches_nothing (op : Operation) (req : Request) (w : World) :
  denied (limiter_of op) req w →
  fst (handler op req w) = too_many_requests (verdict (limiter_of op) req w)
  ∧ status_of (fst (handler op req w)) = 429
  ∧ untouched w (snd (handler op req w)).
Proof.
  intros Hden.
  destruct (handler op req w) as [resp w'] eqn:Hrun. cbn [fst snd].
  unfold verdict.
  destruct op; cbn [handler limiter_of] in Hrun, Hden |- *; run_route_in Hrun;
    denied_in Hden Hrun; simplify_eq;
    (split_and!; [reflexivity|reflexivity|untouched_done]).
Qed.

Lemma rate_limited_touches_nothing_witness :
  denied (limiter_of OpCreateMessage) Example.eleventh Cases.busy_world
  ∧ status_of (fst (handler OpCreateMessage Example.eleventh Cases.busy_world)) = 429
  ∧ untouched Cases.busy_world
      (snd (handler OpCreateMessage Example.eleventh Cases.busy_world)).
Proof.
  assert (denied (limiter_of OpCreateMessage) Example.eleventh Cases.busy_world) as Hden.
  { split; vm_compute; reflexivity. }
  split; [exact Hden|].
  exact (proj2 (rate_limited_touches_nothing OpCreateMessage Example.eleventh
                  Cases.busy_world Hden)).
Defined.

(** ** What the POST handlers do with their body *)

(** X3.  A POST whose body is not JSON ([req.json()] throws) is answered by the
    server fault of its handler, for CreateChat, CreateMessage and
    StartCompletion alike; nothing is stored, invalidated or started, and
    the error is on the console. *)
Theorem unparseable_body_is_server_fault (op : WriteOp) (req : Request) (w : World)
    (u : User) :
  admitted postReqRateLimit req w →
  session_user req = Some u →
  body req = None →
  status_of (fst (run_write op req w)) = 500
  ∧ same_store w (snd (run_write op req w))
  ∧ redis (snd (run_write op req w)) = redis w
  ∧ detached (snd (run_write op req w)) = detached w
  ∧ console (snd (run_write op req w))
    = (console w ++ ["SyntaxError: Unexpected end of JSON input"])%list.
Proof.
  intros Hadm Hu Hbody.
  destruct (run_write op req w) as [resp w'] eqn:Hrun. cbn [fst snd].
  destruct op; cbn [run_write] in Hrun; run_route_in Hrun;
    admitted_in Hadm Hrun; rewrite Hu, Hbody in Hrun;
    cbv beta iota zeta in Hrun; simplify_eq;
    unfold same_store; world_simpl; split_and!; reflexivity.
Qed.

Lemma unparseable_body_is_server_fault_witness :
  let req := Cases.without_body Example.start_completion in
  (admitted postReqRateLimit req Example.world
   ∧ session_user req = Some {| id := "u1" |} ∧ body req = None)
  ∧ status_of (fst (run_write StartCompletion req Example.world)) = 500
  ∧ detached (snd (run_write StartCompletion req Example.world)) = [].
Proof.
  cbv zeta.
  assert (admitted postReqRateLimit (Cases.without_body Example.start_completion)
            Example.world) as Hadm.
  { split; vm_compute; reflexivity. }
  split; [by split_and!|].
  destruct (unparseable_body_is_server_fault StartCompletion
              (Cases.without_body Example.start_completion) Example.world
              {| id := "u1" |} Hadm eq_refl eq_refl) as (H1 & _ & _ & H4 & _).
  split; [exact H1|exact H4].
Defined.

(** X4.  CreateChat looks at [message] in two steps.  A body without the field,
    or with the empty string, passes the schema and is answered 400
    Missing message; a field that is there but is no string (a number,
    [null]) fails the schema and is answered by the server fault, status 500.
    In both cases no chat and no message is created and the cache is left
    alone. *)
Theorem create_chat_checks_message (req : Request) (w : World) (u : User)
    (o : list (string * JSON.json)) :
  admitted postReqRateLimit req w →
  session_user req = Some u →
  body req = Some (JObj o) →
  (assoc "message" o = None ∨ assoc "message" o = Some (JStr EmptyString) →
   fst (POST_chat req w) = error_json "Missing message" 400
   ∧ untouched w (snd (POST_chat req w)))
  ∧ (∀ v, assoc "message" o = Some v → (∀ s, v ≠ JStr s) →
     fst (POST_chat req w)
     = server_fault OpCreateChat (ZodError "message" "Expected string")
     ∧ same_store w (snd (POST_chat req w))
     ∧ redis (snd (POST_chat req w)) = redis w).
Proof.
  intros Hadm Hu Hbody.
  destruct (POST_chat req w) as [resp w'] eqn:Hrun. cbn [fst snd].
  run_route_in Hrun. admitted_in Hadm Hrun. rewrite Hu, Hbody in Hrun.
  cbv beta iota zeta in Hrun. split.
  - intros [Hm|Hm]; rewrite Hm in Hrun; cbv beta iota zeta in Hrun;
      try change (String.eqb EmptyString EmptyString) with true in Hrun;
      cbv beta iota zeta in Hrun;
      simplify_eq; (split; [reflexivity|untouched_done]).
  - intros v Hm Hv. rewrite Hm in Hrun.
    destruct v as [|b|n|s|l'|l']; try (by destruct (Hv s));
      cbv beta iota zeta in Hrun; simplify_eq;
      (split_and!; [reflexivity|unfold same_store; world_simpl; by split_and!|
                    reflexivity]).
Qed.

Lemma create_chat_checks_message_witness :
  (admitted postReqRateLimit Cases.empty_message Example.world
   ∧ admitted postReqRateLimit Cases.numeric_message Example.world)
  ∧ fst (POST_chat Cases.empty_message Example.world) = error_json "Missing message" 400
  ∧ status_of (fst (POST_chat Cases.numeric_message Example.world)) = 500.
Proof.
  assert (admitted postReqRateLimit Cases.empty_message Example.world) as Ha1.
  { split; vm_compute; reflexivity. }
  assert (admitted postReqRateLimit Cases.numeric_message Example.world) as Ha2.
  { split; vm_compute; reflexivity. }
  split; [by split|]. split.
  - exact (proj1 (proj1 (create_chat_checks_message Cases.empty_message Example.world
                           {| id := "u1" |} _ Ha1 eq_refl eq_refl)
                    (or_intror eq_refl))).
  - destruct (proj2 (create_chat_checks_message Cases.numeric_message Example.world
                       {| id := "u1" |} _ Ha2 eq_refl eq_refl)
                (JNum 7) eq_refl) as [H _]; [discriminate|].
    by rewrite H.
Defined.

(** X5.  ListMessages without a [chatId] in the query, or with an empty one, is
    answered 400 Missing chatId before the cache or the store is asked:
    nothing but the window of the limiter has changed, even when cache and
    store are unreachable. *)
Theorem list_messages_requires_chatId (req : Request) (w : World) (u : User) :
  admitted getReqRateLimit req w →
  session_user req = Some u →
  searchParams_chatId req = None ∨ searchParams_chatId req = Some EmptyString →
  fst (GET_messages req w) = error_json "Missing chatId" 400
  ∧ untouched w (snd (GET_messages req w)).
Proof.
  intros Hadm Hu Hq.
  destruct (GET_messages req w) as [resp w'] eqn:Hrun. cbn [fst snd].
  run_route_in Hrun. admitted_in Hadm Hrun. rewrite Hu in Hrun.
  destruct Hq as [Hq|Hq]; rewrite Hq in Hrun; cbv beta iota zeta in Hrun;
    try change (String.eqb EmptyString EmptyString) with true in Hrun;
    cbv beta iota zeta in Hrun;
    simplify_eq; (split; [reflexivity|untouched_done]).
Qed.

Lemma list_messages_requires_chatId_witness :
  let req := Example.with_faults Example.get_down (Example.list_chats 2000) in
  (admitted getReqRateLimit req Example.world
   ∧ session_user req = Some {| id := "u1" |}
   ∧ searchParams_chatId req = None)
  ∧ fst (GET_messages req Example.world) = error_json "Missing chatId" 400.
Proof.
  cbv zeta.
  assert (admitted getReqRateLimit
            (Example.with_faults Example.get_down (Example.list_chats 2000))
            Example.world) as Hadm.
  { split; vm_compute; reflexivity. }
  split; [by split_and!|].
  exact (proj1 (list_messages_requires_chatId _ Example.world {| id := "u1" |}
                  Hadm eq_refl (or_introl eq_refl))).
Defined.

(** ** Creating, and failing halfway *)

Lemma chat_exists_snoc (chat : Chat.t) (l : list Chat.t) (n : N) (w : World) :
  chat_exists (Chat.id chat) (with_db_chats (l ++ [chat]) n w) = true.
Proof.
  unfold chat_exists. world_simpl. rewrite existsb_app. cbn [existsb].
  rewrite String.eqb_refl. by rewrite orb_true_r.
Qed.

(** X6.  A CreateChat with a non-empty message, by a caller the store knows,
    with every collaborator healthy: the answer carries the id of a new chat
    titled New Chat and owned by the caller; the store has gained exactly
    that chat and one message in it, of role USER, with the given content
    and the caller as author; and the caller's chat list key is gone from
    the cache. *)
Theorem create_chat_effect (req : Request) (w : World) (u : User)
    (o : list (string * JSON.json)) (message : string) :
  admitted postReqRateLimit req w →
  session_user req = Some u →
  faults req = no_faults →
  body req = Some (JObj o) →
  assoc "message" o = Some (JStr message) →
  message ≠ EmptyString →
  user_exists (id u) w = true →
  let chat :=
    {| Chat.id := cuid (db_seq w); Chat.createdAt := now req;
       Chat.updatedAt := now req; Chat.userId := id u;
       Chat.title := Some "New Chat" |} in
  let first :=
    {| Message.id := cuid (N.succ (db_seq w)); Message.content := message;
       Message.role := USER; Message.createdAt := now req;
       Message.chatId := Chat.id chat; Message.userId := Some (id u) |} in
  fst (POST_chat req w) = ok_json (JObj [("chatId", JStr (Chat.id chat))])
  ∧ db_chats (snd (POST_chat req w)) = (db_chats w ++ [chat])%list
  ∧ db_messages (snd (POST_chat req w)) = (db_messages w ++ [first])%list
  ∧ redis (snd (POST_chat req w)) = delete (chats_cacheKey (id u)) (redis w).
Proof.
  intros Hadm Hu Hf Hbody Hm Hne Huser chat first.
  destruct (POST_chat req w) as [resp w'] eqn:Hrun. cbn [fst snd].
  run_route_in Hrun. admitted_in Hadm Hrun. rewrite Hu, Hbody in Hrun.
  cbv beta iota zeta in Hrun. rewrite Hm in Hrun. cbv beta iota zeta in Hrun.
  apply String.eqb_neq in Hne. rewrite Hne, Hf in Hrun.
  cbn [no_faults chat_create_fails redis_del_fails message_create_fails] in Hrun.
  change (user_exists (id u) (with_hits (limit_class postReqRateLimit)
            (<[ip_of req:=l]> (hits_of (limit_class postReqRateLimit) w)) w))
    with (user_exists (id u) w) in Hrun.
  rewrite Huser in Hrun. cbv beta iota zeta in Hrun.
  match type of Hrun with
  | context [chat_exists (Chat.id ?c) (with_redis ?r (with_db_chats (?l0 ++ [?c]) ?n ?w0))] =>
      change (chat_exists (Chat.id c) (with_redis r (with_db_chats (l0 ++ [c]) n w0)))
        with (chat_exists (Chat.id c) (with_db_chats (l0 ++ [c]) n w0)) in Hrun;
      rewrite (chat_exists_snoc c l0 n w0) in Hrun
  end.
  match type of Hrun with
  | context [user_exists (id u) ?w0] =>
      change (user_exists (id u) w0) with (user_exists (id u) w) in Hrun
  end.
  rewrite Huser in Hrun. cbn [andb] in Hrun. cbv beta iota zeta in Hrun.
  simplify_eq. world_simpl. by split_and!.
Qed.

Lemma create_chat_effect_witness :
  (admitted postReqRateLimit Example.create_chat Example.world
   ∧ user_exists "u1" Example.world = true)
  ∧ fst (POST_chat Example.create_chat Example.world)
    = ok_json (JObj [("chatId", JStr "c2")])
  ∧ db_messages (snd (POST_chat Example.create_chat Example.world))
    = [ Example.message0;
        {| Message.id := "c3"; Message.content := "hello"; Message.role := USER;
           Message.createdAt := 2000; Message.chatId := "c2";
           Message.userId := Some "u1" |} ].
Proof.
  assert (admitted postReqRateLimit Example.create_chat Example.world) as Hadm.
  { split; vm_compute; reflexivity. }
  split; [by split|].
  destruct (create_chat_effect Example.create_chat Example.world {| id := "u1" |}
              _ "hello" Hadm eq_refl eq_refl eq_refl eq_refl
              ltac:(discriminate) eq_refl) as (H1 & _ & H3 & _).
  split; [exact H1|exact H3].
Defined.

(** X7.  CreateChat is not all-or-nothing.  When [redis.del] throws after the
    chat was created, or the creation of the first message throws after
    that, the caller gets the server fault (status 500) and yet the new chat
    stays in the store, without a message; in the first case the cached chat
    list of the caller stays as well. *)
Theorem create_chat_fails_halfway (req : Request) (w : World) (u : User)
    (o : list (string * JSON.json)) (message e : string) :
  admitted postReqRateLimit req w →
  session_user req = Some u →
  body req = Some (JObj o) →
  assoc "message" o = Some (JStr message) →
  message ≠ EmptyString →
  chat_create_fails (faults req) = None →
  user_exists (id u) w = true →
  let chat :=
    {| Chat.id := cuid (db_seq w); Chat.createdAt := now req;
       Chat.updatedAt := now req; Chat.userId := id u;
       Chat.title := Some "New Chat" |} in
  (redis_del_fails (faults req) = Some e →
   fst (POST_chat req w) = server_fault OpCreateChat e
   ∧ db_chats (snd (POST_chat req w)) = (db_chats w ++ [chat])%list
   ∧ db_messages (snd (POST_chat req w)) = db_messages w
   ∧ redis (snd (POST_chat req w)) = redis w)
  ∧ (redis_del_fails (faults req) = None →
     message_create_fails (faults req) = Some e →
     fst (POST_chat req w) = server_fault OpCreateChat e
     ∧ db_chats (snd (POST_chat req w)) = (db_chats w ++ [chat])%list
     ∧ db_messages (snd (POST_chat req w)) = db_messages w
     ∧ redis (snd (POST_chat req w)) = delete (chats_cacheKey (id u)) (redis w)).
Proof.
  intros Hadm Hu Hbody Hm Hne Hcreate Huser chat.
  destruct (POST_chat req w) as [resp w'] eqn:Hrun. cbn [fst snd].
  run_route_in Hrun. admitted_in Hadm Hrun. rewrite Hu, Hbody in Hrun.
  cbv beta iota zeta in Hrun. rewrite Hm in Hrun. cbv beta iota zeta in Hrun.
  apply String.eqb_neq in Hne. rewrite Hne, Hcreate in Hrun.
  change (user_exists (id u) (with_hits (limit_class postReqRateLimit)
            (<[ip_of req:=l]> (hits_of (limit_class postReqRateLimit) w)) w))
    with (user_exists (id u) w) in Hrun.
  rewrite Huser in Hrun. cbv beta iota zeta in Hrun.
  split.
  - intros Hdel. rewrite Hdel in Hrun. cbv beta iota zeta in Hrun.
    simplify_eq. world_simpl. by split_and!.
  - intros Hdel Hmc. rewrite Hdel, Hmc in Hrun. cbv beta iota zeta in Hrun.
    simplify_eq. world_simpl. by split_and!.
Qed.

Lemma create_chat_fails_halfway_witness :
  let req := Example.with_faults Cases.message_create_down Example.create_chat in
  (admitted postReqRateLimit req Example.world ∧ user_exists "u1" Example.world = true)
  ∧ status_of (fst (POST_chat req Example.world)) = 500
  ∧ length (db_chats (snd (POST_chat req Example.world))) = 2%nat
  ∧ db_messages (snd (POST_chat req Example.world)) = [Example.message0].
Proof.
  cbv zeta.
  assert (admitted postReqRateLimit
            (Example.with_faults Cases.message_create_down Example.create_chat)
            Example.world) as Hadm.
  { split; vm_compute; reflexivity. }
  split; [by split|].
  destruct (proj2 (create_chat_fails_halfway
                     (Example.with_faults Cases.message_create_down Example.create_chat)
                     Example.world {| id := "u1" |} _ "hello" Example.unreachable
                     Hadm eq_refl eq_refl eq_refl ltac:(discriminate) eq_refl eq_refl)
              eq_refl eq_refl) as (H1 & H2 & H3 & _).
  split_and!; [by rewrite H1|by rewrite H2|exact H3].
Defined.

(** X8.  CreateMessage is not all-or-nothing either: when [redis.del] throws
    after the message was created, the caller gets the server fault
    (status 500), the message stays in the store, and the cache entry that
    was to be deleted stays too. *)
Theorem create_message_fails_after_write (req : Request) (w : World) (u : User)
    (o : list (string * JSON.json)) (chatId content e : string) (role : Role) :
  admitted postReqRateLimit req w →
  session_user req = Some u →
  body req = Some (JObj o) →
  assoc "chatId" o = Some (JStr chatId) →
  assoc "content" o = Some (JStr content) →
  assoc "role" o = Some (JStr (Role_name role)) →
  message_create_fails (faults req) = None →
  chat_exists chatId w = true → user_exists (id u) w = true →
  redis_del_fails (faults req) = Some e →
  fst (POST_messages req w) = server_fault OpCreateMessage e
  ∧ db_messages (snd (POST_messages req w))
    = (db_messages w
       ++ [ {| Message.id := cuid (db_seq w); Message.content := content;
               Message.role := role; Message.createdAt := now req;
               Message.chatId := chatId; Message.userId := Some (id u) |} ])%list
  ∧ redis (snd (POST_messages req w)) = redis w.
Proof.
  intros Hadm Hu Hbody Hc Hcontent Hrole Hmc Hchat Huser Hdel.
  destruct (POST_messages req w) as [resp w'] eqn:Hrun. cbn [fst snd].
  run_route_in Hrun. admitted_in Hadm Hrun. rewrite Hu, Hbody in Hrun.
  cbv beta iota zeta in Hrun. rewrite Hc, Hcontent, Hrole in Hrun.
  cbv beta iota zeta in Hrun.
  assert (Role_of_name (Role_name role) = Some role) as HR by (by destruct role).
  rewrite HR, Hmc in Hrun. cbv beta iota zeta in Hrun.
  change (chat_exists chatId (with_hits (limit_class postReqRateLimit)
            (<[ip_of req:=l]> (hits_of (limit_class postReqRateLimit) w)) w))
    with (chat_exists chatId w) in Hrun.
  change (user_exists (id u) (with_hits (limit_class postReqRateLimit)
            (<[ip_of req:=l]> (hits_of (limit_class postReqRateLimit) w)) w))
    with (user_exists (id u) w) in Hrun.
  rewrite Hchat, Huser, Hdel in Hrun. cbn [andb] in Hrun.
  cbv beta iota zeta in Hrun. simplify_eq. world_simpl. by split_and!.
Qed.

Lemma create_message_fails_after_write_witness :
  let req := Example.with_faults Cases.del_down Example.create_message in
  (admitted postReqRateLimit req Example.world
   ∧ chat_exists "c0" Example.world = true
   ∧ redis_del_fails (faults req) = Some Example.unreachable)
  ∧ status_of (fst (POST_messages req Example.world)) = 500
  ∧ length (db_messages (snd (POST_messages req Example.world))) = 2%nat.
Proof.
  cbv zeta.
  assert (admitted postReqRateLimit
            (Example.with_faults Cases.del_down Example.create_message)
            Example.world) as Hadm.
  { split; vm_compute; reflexivity. }
  split; [by split_and!|].
  destruct (create_message_fails_after_write
              (Example.with_faults Cases.del_down Example.create_message)
              Example.world {| id := "u1" |} _ "c0" "again" Example.unreachable USER
              Hadm eq_refl eq_refl eq_refl eq_refl eq_refl eq_refl eq_refl eq_refl
              eq_refl) as (H1 & H2 & _).
  split; [by rewrite H1|by rewrite H2].
Defined.

(** X9.  A CreateMessage for a chat id the store does not hold breaks the
    relation of [Message] to [Chat]: it is answered by the server fault,
    status 500, no message is created and the cache is left alone. *)
Theorem create_message_unknown_chat (req : Request) (w : World) (u : User)
    (o : list (string * JSON.json)) (chatId content : string) (role : Role) :
  admitted postReqRateLimit req w →
  session_user req = Some u →
  body req = Some (JObj o) →
  assoc "chatId" o = Some (JStr chatId) →
  assoc "content" o = Some (JStr content) →
  assoc "role" o = Some (JStr (Role_name role)) →
  message_create_fails (faults req) = None →
  chat_exists chatId w = false →
  fst (POST_messages req w) = server_fault OpCreateMessage foreign_key_error
  ∧ same_store w (snd (POST_messages req w))
  ∧ redis (snd (POST_messages req w)) = redis w.
Proof.
  intros Hadm Hu Hbody Hc Hcontent Hrole Hmc Hchat.
  destruct (POST_messages req w) as [resp w'] eqn:Hrun. cbn [fst snd].
  run_route_in Hrun. admitted_in Hadm Hrun. rewrite Hu, Hbody in Hrun.
  cbv beta iota zeta in Hrun. rewrite Hc, Hcontent, Hrole in Hrun.
  cbv beta iota zeta in Hrun.
  assert (Role_of_name (Role_name role) = Some role) as HR by (by destruct role).
  rewrite HR, Hmc in Hrun. cbv beta iota zeta in Hrun.
  change (chat_exists chatId (with_hits (limit_class postReqRateLimit)
            (<[ip_of req:=l]> (hits_of (limit_class postReqRateLimit) w)) w))
    with (chat_exists chatId w) in Hrun.
  rewrite Hchat in Hrun. cbn [andb] in Hrun.
  cbv beta iota zeta in Hrun. simplify_eq.
  unfold same_store. world_simpl. by split_and!.
Qed.

Lemma create_message_unknown_chat_witness :
  (admitted postReqRateLimit Cases.orphan_message Example.world
   ∧ chat_exists "nowhere" Example.world = false)
  ∧ status_of (fst (POST_messages Cases.orphan_message Example.world)) = 500
  ∧ db_messages (snd (POST_messages Cases.orphan_message Example.world))
    = [Example.message0].
Proof.
  assert (admitted postReqRateLimit Cases.orphan_message Example.world) as Hadm.
  { split; vm_compute; reflexivity. }
  split; [by split|].
  destruct (create_message_unknown_chat Cases.orphan_message Example.world
              {| id := "u1" |} _ "nowhere" "lost" USER
              Hadm eq_refl eq_refl eq_refl eq_refl eq_refl eq_refl eq_refl)
    as (H1 & (_ & _ & H3 & _) & _).
  split; [by rewrite H1|exact H3].
Defined.

(** ** Lists that hit the cache, and entries that have expired *)

(** X10.  A list that finds under the caller's key an entry that has not expired
    and holds the serialization of rows, as a list writes it on a miss,
    answers from it alone: [cached = true] with those rows, whether or not
    the store can be reached and whatever it holds by now, and without
    writing the entry again, so that a hit does not renew the time to
    live. *)
Theorem list_hit_skips_store (req : Request) (w : World) (u : User) :
  admitted getReqRateLimit req w →
  session_user req = Some u →
  redis_get_fails (faults req) = None →
  (∀ e rows,
     redis w !! chats_cacheKey (id u) = Some e → now req < expires_at e →
     value e = stringify (chats_toJSON rows) →
     fst (GET_chat req w)
     = ok_json (JObj [("chats", chats_toJSON rows); ("cached", JBool true)])
     ∧ untouched w (snd (GET_chat req w)))
  ∧ (∀ chatId e rows,
       searchParams_chatId req = Some chatId → chatId ≠ EmptyString →
       redis w !! messages_cacheKey (id u) chatId = Some e → now req < expires_at e →
       value e = stringify (messages_toJSON rows) →
       fst (GET_messages req w)
       = ok_json (JObj [("messages", messages_toJSON rows); ("cached", JBool true)])
       ∧ untouched w (snd (GET_messages req w))).
Proof.
  intros Hadm Hu Hget. split.
  - intros e rows He Hexp Hval.
    destruct (served_from_cache (automaticDeserialization w)
                (List.map Chat_toJSON rows)) as [Ht Hv].
    cbv zeta in Ht, Hv. unfold chats_toJSON in *.
    destruct (GET_chat req w) as [resp w'] eqn:Hrun. cbn [fst snd].
    run_route_in Hrun. admitted_in Hadm Hrun. rewrite Hu, Hget in Hrun.
    cbv beta iota zeta in Hrun.
    rewrite cache_lookup_with_hits in Hrun. unfold cache_lookup in Hrun.
    rewrite He, (proj2 (Z.ltb_lt _ _) Hexp), Hval, Ht in Hrun.
    cbv beta iota zeta in Hrun.
    destruct (deserialize _ _) as [| | |text| |]; try rewrite Hv in Hrun;
      cbv beta iota zeta in Hrun; simplify_eq;
      (split; [reflexivity|untouched_done]).
  - intros chatId e rows Hq Hne He Hexp Hval.
    destruct (served_from_cache (automaticDeserialization w)
                (List.map Message_toJSON rows)) as [Ht Hv].
    cbv zeta in Ht, Hv. unfold messages_toJSON in *.
    destruct (GET_messages req w) as [resp w'] eqn:Hrun. cbn [fst snd].
    run_route_in Hrun. admitted_in Hadm Hrun. rewrite Hu, Hq in Hrun.
    apply String.eqb_neq in Hne. rewrite Hne, Hget in Hrun.
    cbv beta iota zeta in Hrun.
    rewrite cache_lookup_with_hits in Hrun. unfold cache_lookup in Hrun.
    rewrite He, (proj2 (Z.ltb_lt _ _) Hexp), Hval, Ht in Hrun.
    cbv beta iota zeta in Hrun.
    destruct (deserialize _ _) as [| | |text| |]; try rewrite Hv in Hrun;
      cbv beta iota zeta in Hrun; simplify_eq;
      (split; [reflexivity|untouched_done]).
Qed.

Lemma list_hit_skips_store_witness :
  let w1 := snd (GET_messages (Example.list_messages 2000) Example.world) in
  let req := Example.with_faults Cases.findMany_down (Example.list_messages 2500) in
  (admitted getReqRateLimit req w1
   ∧ findMany_fails (faults req) = Some Example.unreachable
   ∧ redis w1 !! messages_cacheKey "u1" "c0"
     = Some {| value := stringify (messages_toJSON [Example.message0]);
               expires_at := 302000 |})
  ∧ fst (GET_messages req w1)
    = ok_json (JObj [("messages", messages_toJSON [Example.message0]);
                     ("cached", JBool true)])
  ∧ untouched w1 (snd (GET_messages req w1)).
Proof.
  cbv zeta.
  set (w1 := snd (GET_messages (Example.list_messages 2000) Example.world)).
  set (req := Example.with_faults Cases.findMany_down (Example.list_messages 2500)).
  assert (admitted getReqRateLimit req w1) as Hadm.
  { split; vm_compute; reflexivity. }
  assert (redis w1 !! messages_cacheKey "u1" "c0"
          = Some {| value := stringify (messages_toJSON [Example.message0]);
                    expires_at := 302000 |}) as He.
  { vm_compute; reflexivity. }
  split; [by split_and!|].
  apply (proj2 (list_hit_skips_store req w1 {| id := "u1" |} Hadm eq_refl eq_refl)
           "c0" _ [Example.message0] eq_refl ltac:(discriminate) He);
    [vm_compute; reflexivity|reflexivity].
Defined.

(** X11.  An entry whose expiry instant has come is no entry: a list that finds
    one under the caller's key asks the store, answers [cached = false] with
    the rows as they are now, and writes the entry anew, to expire 300
    seconds after this list. *)
Theorem expired_entry_is_refreshed (req : Request) (w : World) (u : User) :
  admitted getReqRateLimit req w →
  session_user req = Some u →
  faults req = no_faults →
  (∀ e, redis w !! chats_cacheKey (id u) = Some e → expires_at e ≤ now req →
     let rows := chats_toJSON (chats_of (id u) (db_chats w)) in
     fst (GET_chat req w) = ok_json (JObj [("chats", rows); ("cached", JBool false)])
     ∧ redis (snd (GET_chat req w)) !! chats_cacheKey (id u)
       = Some {| value := stringify rows; expires_at := now req + 300 * 1000 |})
  ∧ (∀ chatId e,
       searchParams_chatId req = Some chatId → chatId ≠ EmptyString →
       redis w !! messages_cacheKey (id u) chatId = Some e → expires_at e ≤ now req →
       let rows := messages_toJSON (messages_of chatId (db_messages w)) in
       fst (GET_messages req w)
       = ok_json (JObj [("messages", rows); ("cached", JBool false)])
       ∧ redis (snd (GET_messages req w)) !! messages_cacheKey (id u) chatId
         = Some {| value := stringify rows; expires_at := now req + 300 * 1000 |}).
Proof.
  intros Hadm Hu Hf. split.
  - intros e He Hexp rows.
    assert (cache_miss (chats_cacheKey (id u)) req w) as Hmiss.
    { unfold cache_miss, cache_lookup. rewrite He.
      by rewrite (proj2 (Z.ltb_ge _ _) Hexp). }
    rewrite (GET_chat_miss req w u) by done. cbn [fst snd]. world_simpl.
    split; [done|apply lookup_insert_eq].
  - intros chatId e Hq Hne He Hexp rows.
    assert (cache_miss (messages_cacheKey (id u) chatId) req w) as Hmiss.
    { unfold cache_miss, cache_lookup. rewrite He.
      by rewrite (proj2 (Z.ltb_ge _ _) Hexp). }
    rewrite (GET_messages_miss req w u chatId) by done. cbn [fst snd]. world_simpl.
    split; [done|apply lookup_insert_eq].
Qed.

Lemma expired_entry_is_refreshed_witness :
  let w1 := snd (GET_messages (Example.list_messages 2000) Example.world) in
  let req := Example.list_messages 302000 in
  (admitted getReqRateLimit req w1
   ∧ redis w1 !! messages_cacheKey "u1" "c0"
     = Some {| value := stringify (messages_toJSON [Example.message0]);
               expires_at := 302000 |})
  ∧ fst (GET_messages req w1)
    = ok_json (JObj [("messages", messages_toJSON [Example.message0]);
                     ("cached", JBool false)]).
Proof.
  cbv zeta.
  set (w1 := snd (GET_messages (Example.list_messages 2000) Example.world)).
  assert (admitted getReqRateLimit (Example.list_messages 302000) w1) as Hadm.
  { split; vm_compute; reflexivity. }
  assert (redis w1 !! messages_cacheKey "u1" "c0"
          = Some {| value := stringify (messages_toJSON [Example.message0]);
                    expires_at := 302000 |}) as He.
  { vm_compute; reflexivity. }
  split; [by split|].
  destruct (proj2 (expired_entry_is_refreshed (Example.list_messages 302000) w1
                     {| id := "u1" |} Hadm eq_refl eq_refl)
              "c0" _ eq_refl ltac:(discriminate) He) as [H _].
  - vm_compute; discriminate.
  - etrans; [exact H|]. vm_compute; reflexivity.
Defined.

(** ** What the operations never do *)

Ltac frame_done :=
  simplify_eq; unfold same_store; world_simpl; split_and!; reflexivity.

(** X12.  The two lists and the start of a completion never write the store,
    whatever the request and whatever fails: users, chats, messages and the
    id sequence are as before.  A list starts no completion, and the start
    of a completion leaves the cache alone (the prompt of the caller is not
    stored by it either). *)
Theorem reads_never_write_the_store (req : Request) (w : World) :
  (same_store w (snd (GET_chat req w))
   ∧ detached (snd (GET_chat req w)) = detached w)
  ∧ (same_store w (snd (GET_messages req w))
     ∧ detached (snd (GET_messages req w)) = detached w)
  ∧ (same_store w (snd (POST_aiResponse req w))
     ∧ redis (snd (POST_aiResponse req w)) = redis w).
Proof.
  split_and!.
  - destruct (GET_chat req w) as [resp w'] eqn:Hrun. cbn [snd].
    run_route_in Hrun. repeat step_in Hrun; frame_done.
  - destruct (GET_chat req w) as [resp w'] eqn:Hrun. cbn [snd].
    run_route_in Hrun. repeat step_in Hrun; simplify_eq; reflexivity.
  - destruct (GET_messages req w) as [resp w'] eqn:Hrun. cbn [snd].
    run_route_in Hrun. repeat step_in Hrun; frame_done.
  - destruct (GET_messages req w) as [resp w'] eqn:Hrun. cbn [snd].
    run_route_in Hrun. repeat step_in Hrun; simplify_eq; reflexivity.
  - destruct (POST_aiResponse req w) as [resp w'] eqn:Hrun. cbn [snd].
    run_route_in Hrun. repeat step_in Hrun; frame_done.
  - destruct (POST_aiResponse req w) as [resp w'] eqn:Hrun. cbn [snd].
    run_route_in Hrun. repeat step_in Hrun; simplify_eq; reflexivity.
Qed.

Lemma onFinish_appends (t : Task) (env : Request) (w : World) :
  db_users (onFinish t env w) = db_users w
  ∧ db_chats (onFinish t env w) = db_chats w
  ∧ db_messages w `prefix_of` db_messages (onFinish t env w).
Proof.
  unfold onFinish, db_message_create.
  repeat case_match; simplify_eq; world_simpl; split_and!;
    first [reflexivity|by apply prefix_app_r].
Qed.

(** X13.  No operation, and no [onFinish], deletes or changes a row: after any of
    them the users are as before and the chats and messages of before are
    still there, unchanged and in their order, with at most new rows after
    them.  In particular the title and the [updatedAt] of a chat stay what
    they were at its creation. *)
Theorem rows_are_only_appended (op : Operation) (req : Request) (w : World) :
  (db_users (snd (handler op req w)) = db_users w
   ∧ db_chats w `prefix_of` db_chats (snd (handler op req w))
   ∧ db_messages w `prefix_of` db_messages (snd (handler op req w)))
  ∧ (db_users (finish_generation req w) = db_users w
     ∧ db_chats w `prefix_of` db_chats (finish_generation req w)
     ∧ db_messages w `prefix_of` db_messages (finish_generation req w)).
Proof.
  split.
  - destruct (handler op req w) as [resp w'] eqn:Hrun. cbn [snd].
    destruct op; cbn [handler] in Hrun; run_route_in Hrun;
      repeat step_in Hrun; simplify_eq; world_simpl; split_and!;
      first [reflexivity|by apply prefix_app_r].
  - unfold finish_generation. destruct (detached w) as [|t rest]; [by split_and!|].
    destruct (onFinish_appends t req (with_detached rest w)) as (H1 & H2 & H3).
    rewrite H1, H2. by split_and!.
Qed.

(** X14.  [onFinish] never throws.  When the text is not empty and the store
    refuses the row, because the create fails or because the chat is not
    there any more, nothing is persisted and nothing else changes: the one
    trace is the line on the console.  When the row is accepted, the console
    gets the line of success. *)
Theorem onFinish_failure_is_logged (t : Task) (env : Request) (w : World) :
  task_text t ≠ EmptyString →
  (∀ e, message_create_fails (faults env) = Some e →
     onFinish t env w
     = console_error ("Error saving AI response to database: " +:+ e) w)
  ∧ (message_create_fails (faults env) = None →
     chat_exists (task_chatId t) w = false →
     onFinish t env w
     = console_error
         ("Error saving AI response to database: " +:+ foreign_key_error) w)
  ∧ (message_create_fails (faults env) = None →
     chat_exists (task_chatId t) w = true → user_exists (task_userId t) w = true →
     console (onFinish t env w)
     = (console w ++ ["AI response saved to DB for chat: " +:+ task_chatId t])%list).
Proof.
  intros Htext. apply String.eqb_neq in Htext.
  unfold onFinish, db_message_create. rewrite Htext. cbn [negb].
  split_and!.
  - intros e He. by rewrite He.
  - intros He Hc. by rewrite He, Hc.
  - intros He Hc Hu. by rewrite He, Hc, Hu.
Qed.

Lemma onFinish_failure_is_logged_witness :
  let t := {| task_text := "Hello"; task_chatId := "nowhere"; task_userId := "u1" |} in
  (task_text t ≠ EmptyString ∧ chat_exists (task_chatId t) Example.world = false)
  ∧ onFinish t (Example.request "u1" 3500) Example.world
    = console_error
        ("Error saving AI response to database: " +:+ foreign_key_error)
        Example.world.
Proof.
  cbv zeta. split; [split; [discriminate|reflexivity]|].
  refine (proj1 (proj2 (onFinish_failure_is_logged
                          {| task_text := "Hello"; task_chatId := "nowhere";
                             task_userId := "u1" |}
                          (Example.request "u1" 3500) Example.world _))
            eq_refl eq_refl).
  discriminate.
Defined.

(** ** The cached chat lists stay coherent with the store *)

Lemma chats_cacheKey_inj u1 u2 : chats_cacheKey u1 = chats_cacheKey u2 → u1 = u2.
Proof.
  unfold chats_cacheKey. intros H.
  repeat rewrite app_cons in H. rewrite !app_empty in H. by simplify_eq.
Qed.

Lemma chats_messages_cacheKey_ne u1 u2 c : chats_cacheKey u1 ≠ messages_cacheKey u2 c.
Proof.
  unfold chats_cacheKey, messages_cacheKey. intros H.
  repeat rewrite app_cons in H. rewrite !app_empty in H. by simplify_eq.
Qed.

Lemma chats_of_snoc_other u l c :
  Chat.userId c ≠ u → chats_of u (l ++ [c]) = chats_of u l.
Proof.
  intros Hu. unfold chats_of. rewrite List.filter_app. cbn [List.filter].
  apply String.eqb_neq in Hu. rewrite Hu. by rewrite app_nil_r.
Qed.

Lemma coherent_same w w' :
  db_chats w' = db_chats w → redis w' = redis w →
  chats_coherent w → chats_coherent w'.
Proof. intros Hdb Hr Hc u e. rewrite Hdb, Hr. apply Hc. Qed.

Lemma coherent_insert_chats w w' u t :
  db_chats w' = db_chats w →
  redis w' = <[chats_cacheKey u :=
                 {| value := stringify (chats_toJSON (chats_of u (db_chats w)));
                    expires_at := t |}]> (redis w) →
  chats_coherent w → chats_coherent w'.
Proof.
  intros Hdb Hr Hc u' e. rewrite Hdb, Hr.
  destruct (decide (chats_cacheKey u = chats_cacheKey u')) as [E|E].
  - rewrite E, lookup_insert_eq. apply chats_cacheKey_inj in E as ->.
    intros; by simplify_eq.
  - rewrite lookup_insert_ne by done. apply Hc.
Qed.

Lemma coherent_insert_messages w w' u c e0 :
  db_chats w' = db_chats w →
  redis w' = <[messages_cacheKey u c := e0]> (redis w) →
  chats_coherent w → chats_coherent w'.
Proof.
  intros Hdb Hr Hc u' e. rewrite Hdb, Hr.
  rewrite lookup_insert_ne; [apply Hc|].
  intros E. by apply (chats_messages_cacheKey_ne u' u c).
Qed.

Lemma coherent_delete w w' k :
  db_chats w' = db_chats w → redis w' = delete k (redis w) →
  chats_coherent w → chats_coherent w'.
Proof.
  intros Hdb Hr Hc u' e. rewrite Hdb, Hr.
  intros [_ H]%lookup_delete_Some. by apply Hc.
Qed.

Lemma coherent_create w w' chat :
  db_chats w' = (db_chats w ++ [chat])%list →
  redis w' = delete (chats_cacheKey (Chat.userId chat)) (redis w) →
  chats_coherent w → chats_coherent w'.
Proof.
  intros Hdb Hr Hc u' e. rewrite Hdb, Hr.
  intros [Hne H]%lookup_delete_Some.
  rewrite chats_of_snoc_other; [by apply Hc|].
  intros E. apply Hne. by rewrite E.
Qed.

Ltac world_eval t :=
  eval cbn [db_users db_chats db_messages db_seq redis automaticDeserialization
            write_hits read_hits detached console
            with_db_chats with_db_messages with_redis with_write_hits
            with_read_hits with_detached with_hits console_error console_log] in t.

Ltac coherent_done Hc :=
  world_simpl;
  lazymatch type of Hc with
  | chats_coherent ?w0 =>
      lazymatch goal with
      | |- chats_coherent ?w1 =>
          let r := world_eval (redis w1) in
          let d := world_eval (db_chats w1) in
          lazymatch r with
          | redis w0 => apply (coherent_same w0)
          | insert (chats_cacheKey _) _ (redis w0) => eapply (coherent_insert_chats w0)
          | insert (messages_cacheKey _ _) _ (redis w0) =>
              eapply (coherent_insert_messages w0)
          | delete _ (redis w0) =>
              lazymatch d with
              | db_chats w0 => eapply (coherent_delete w0)
              | _ => eapply (coherent_create w0)
              end
          end; [reflexivity|reflexivity|exact Hc]
      end
  end.

Lemma step_coherent (ev : Event) (w : World) :
  chats_coherent w → del_healthy ev → chats_coherent (step ev w).
Proof.
  intros Hc Hdel. destruct ev as [op req|env]; cbn [step].
  - destruct (handler op req w) as [resp w'] eqn:Hrun. cbn [snd].
    destruct op; cbn [handler del_healthy] in Hrun, Hdel; run_route_in Hrun;
      try rewrite Hdel in Hrun;
      repeat step_in Hrun; simplify_eq; coherent_done Hc.
  - unfold finish_generation. destruct (detached w) as [|t rest]; [done|].
    eapply coherent_same; [| |exact Hc].
    + by destruct (onFinish_appends t env (with_detached rest w)) as (_ & -> & _).
    + by rewrite onFinish_redis.
Qed.

Lemma run_coherent (evs : list Event) :
  ∀ w, chats_coherent w → Forall del_healthy evs → chats_coherent (run evs w).
Proof.
  induction evs as [|ev evs IH]; intros w Hc Hall; [done|].
  inversion_clear Hall as [|? ? Hev Hevs]. cbn [run].
  apply IH; [|done]. by apply step_coherent.
Qed.

Lemma empty_cache_coherent (w : World) : redis w = ∅ → chats_coherent w.
Proof. intros Hr u e. by rewrite Hr, lookup_empty. Qed.

(** X15.  The cached chat lists are kept coherent with the store as long as the
    calls do not overlap.  From a world with an empty cache, after any
    history of operations and finished completions that follow one another
    and in which no [redis.del] of a CreateChat throws, every entry under a
    chat list key, expired or not, is the serialization of the chats its
    owner has in the store at that moment: a create deletes the entry of its
    caller and touches that of nobody else, and a list writes what it has
    just read.  Calls that overlap break this: after the list overtaken by
    a create in [Overtaken] the entry of the caller lacks the new chat. *)
Theorem chats_cache_stays_coherent :
  (∀ (evs : list Event) (w : World),
     redis w = ∅ → Forall del_healthy evs → chats_coherent (run evs w))
  ∧ ¬ chats_coherent Overtaken.chats_w4.
Proof.
  split.
  - intros evs w Hr Hall. apply run_coherent; [|exact Hall].
    by apply empty_cache_coherent.
  - intros Hc.
    assert (is_Some (redis Overtaken.chats_w4 !! chats_cacheKey "u1")) as [e He].
    { vm_compute. eexists; reflexivity. }
    pose proof (Hc "u1" e He) as Hval.
    vm_compute in He. injection He as <-. vm_compute in Hval. discriminate Hval.
Qed.

Lemma history_del_healthy : Forall del_healthy History.events.
Proof. repeat constructor. Qed.

Lemma chats_cache_stays_coherent_witness :
  (redis Example.world = ∅ ∧ Forall del_healthy History.events)
  ∧ chats_coherent (run History.events Example.world).
Proof.
  split; [split; [reflexivity|exact history_del_healthy]|].
  exact (proj1 chats_cache_stays_coherent History.events Example.world eq_refl
           history_del_healthy).
Defined.

(** A list of chats that finds a truthy value answers with it. *)
Lemma GET_chat_hit (req : Request) (w : World) (u : User) (v d : JSON.json) :
  admitted getReqRateLimit req w →
  session_user req = Some u →
  redis_get_fails (faults req) = None →
  cache_lookup (chats_cacheKey (id u)) (now req) w = v →
  truthy v = true → hit_payload v = Some d →
  fst (GET_chat req w) = ok_json (JObj [("chats", d); ("cached", JBool true)]).
Proof.
  intros Hadm Hu Hget Hv Ht Hd.
  destruct (GET_chat req w) as [resp w'] eqn:Hrun. cbn [fst].
  run_route_in Hrun. admitted_in Hadm Hrun. rewrite Hu, Hget in Hrun.
  cbv beta iota zeta in Hrun.
  rewrite cache_lookup_with_hits, Hv, Ht in Hrun. cbv beta iota zeta in Hrun.
  destruct v; cbn [hit_payload] in Hd; try rewrite Hd in Hrun;
    cbv beta iota zeta in Hrun; by simplify_eq.
Qed.

(** X16.  In a world whose cached chat lists are coherent with the store, a
    ListChats with healthy collaborators answers with the chats the caller
    has in the store now, be it from the cache or from the store: a chat
    list is never stale. *)
Theorem list_chats_is_never_stale (req : Request) (w : World) (u : User) :
  chats_coherent w →
  admitted getReqRateLimit req w →
  session_user req = Some u →
  faults req = no_faults →
  ∃ cached,
    fst (GET_chat req w)
    = ok_json (JObj [("chats", chats_toJSON (chats_of (id u) (db_chats w)));
                     ("cached", JBool cached)]).
Proof.
  intros Hc Hadm Hu Hf.
  destruct (truthy (cache_lookup (chats_cacheKey (id u)) (now req) w)) eqn:Ht.
  - exists true.
    unfold cache_lookup in Ht.
    destruct (redis w !! chats_cacheKey (id u)) as [e|] eqn:He; [|done].
    destruct (now req <? expires_at e) eqn:Hexp; [|done].
    rewrite (Hc _ _ He) in Ht.
    destruct (served_from_cache (automaticDeserialization w)
                (List.map Chat_toJSON (chats_of (id u) (db_chats w)))) as [_ Hv].
    cbv zeta in Hv.
    apply (GET_chat_hit req w u
             (deserialize (automaticDeserialization w)
                (stringify (chats_toJSON (chats_of (id u) (db_chats w))))));
      [done|done|by rewrite Hf| |done|exact Hv].
    unfold cache_lookup. by rewrite He, Hexp, (Hc _ _ He).
  - exists false. by rewrite (GET_chat_miss req w u).
Qed.

Lemma list_chats_is_never_stale_witness :
  let w := run History.events Example.world in
  let req := Example.list_chats 4000 in
  (chats_coherent w ∧ admitted getReqRateLimit req w)
  ∧ ∃ cached,
      fst (GET_chat req w)
      = ok_json (JObj [("chats", chats_toJSON (chats_of "u1" (db_chats w)));
                       ("cached", JBool cached)]).
Proof.
  cbv zeta.
  assert (chats_coherent (run History.events Example.world)) as Hc.
  { apply run_coherent; [by apply empty_cache_coherent|exact history_del_healthy]. }
  assert (admitted getReqRateLimit (Example.list_chats 4000)
            (run History.events Example.world)) as Hadm.
  { split; vm_compute; reflexivity. }
  split; [by split|].
  exact (list_chats_is_never_stale (Example.list_chats 4000)
           (run History.events Example.world) {| id := "u1" |} Hc Hadm eq_refl eq_refl).
Defined.

(** ** The cache keys *)

Lemma append_inv_head (u x y : string) : u +:+ x = u +:+ y → x = y.
Proof.
  induction u as [|a u IH]; [done|]. rewrite !app_cons. intros E.
  apply IH. by simplify_eq.
Qed.

Lemma colon_split (u1 u2 r1 r2 : string) :
  no_colon u1 = true → no_colon u2 = true →
  u1 +:+ String ":" r1 = u2 +:+ String ":" r2 → u1 = u2 ∧ r1 = r2.
Proof.
  revert u2. induction u1 as [|a u1 IH]; intros [|b u2] H1 H2 E;
    rewrite ?app_cons, ?app_empty in E; cbn [no_colon] in H1, H2;
    simplify_eq; try rewrite Ascii.eqb_refl in *; try done.
  apply andb_true_iff in H1 as [_ H1]. apply andb_true_iff in H2 as [_ H2].
  by destruct (IH u2 H1 H2) as [-> ->].
Qed.

Lemma messages_cacheKey_inj (u1 u2 c1 c2 : string) :
  no_colon u1 = true → no_colon u2 = true →
  messages_cacheKey u1 c1 = messages_cacheKey u2 c2 → u1 = u2 ∧ c1 = c2.
Proof.
  intros H1 H2 E. unfold messages_cacheKey in E.
  repeat rewrite app_cons in E. rewrite !app_empty in E.
  simplify_eq.
  match goal with
  | H : u1 +:+ _ = u2 +:+ _ |- _ =>
      repeat rewrite app_cons in H; rewrite ?app_empty in H;
      destruct (colon_split _ _ _ _ H1 H2 H) as [-> Hr]
  end.
  split; [done|]. by simplify_eq.
Qed.

(** X17.  The cache keys keep the lists apart.  The chat list keys of two users
    differ, a chat list key is never a message list key, and the message
    list keys of one user differ from chat to chat.  Across users the message
    list keys differ as long as the user ids hold no colon, as the ids the
    store makes do; with a colon in an id they can coincide, since the chat
    id of a list is whatever the query says. *)
Theorem cache_keys_are_separate :
  (∀ u1 u2, chats_cacheKey u1 = chats_cacheKey u2 → u1 = u2)
  ∧ (∀ u1 u2 c, chats_cacheKey u1 ≠ messages_cacheKey u2 c)
  ∧ (∀ u c1 c2, messages_cacheKey u c1 = messages_cacheKey u c2 → c1 = c2)
  ∧ (∀ u1 u2 c1 c2,
       no_colon u1 = true → no_colon u2 = true →
       messages_cacheKey u1 c1 = messages_cacheKey u2 c2 → u1 = u2 ∧ c1 = c2)
  ∧ messages_cacheKey "a:chat:b" "c" = messages_cacheKey "a" "b:chat:c".
Proof.
  split_and!.
  - apply chats_cacheKey_inj.
  - apply chats_messages_cacheKey_ne.
  - intros u c1 c2 E. unfold messages_cacheKey in E.
    by do 3 apply append_inv_head in E.
  - apply messages_cacheKey_inj.
  - reflexivity.
Qed.

Lemma cache_keys_are_separate_witness :
  (no_colon "u1" = true ∧ no_colon "u2" = true)
  ∧ (messages_cacheKey "u1" "c0" = messages_cacheKey "u2" "c0" → "u1" = "u2" ∧ "c0" = "c0").
Proof.
  split; [by split|].
  exact (proj1 (proj2 (proj2 (proj2 cache_keys_are_separate)))
           "u1" "u2" "c0" "c0" eq_refl eq_refl).
Defined.



(** X19.  The schema of CreateMessage and the [Role] enumeration of the store
    agree: a role name passes the schema exactly when it is the name of a
    [Role], and it is read as that [Role]. *)
Theorem role_names_round_trip :
  (∀ r, Role_of_name (Role_name r) = Some r)
  ∧ (∀ s r, Role_of_name s = Some r → s = Role_name r).
Proof.
  split.
  - by intros [].
  - intros s r. unfold Role_of_name.
    destruct (String.eqb s "USER") eqn:E1.
    { apply String.eqb_eq in E1. by intros [= <-]. }
    destruct (String.eqb s "ASSISTANT") eqn:E2.
    { apply String.eqb_eq in E2. by intros [= <-]. }
    destruct (String.eqb s "SYSTEM") eqn:E3.
    { apply String.eqb_eq in E3. by intros [= <-]. }
    discriminate.
Qed.

(** ** Create a chat, then list its messages *)

Lemma messages_of_fresh_chat (chatId : string) (l : list Message.t) (m : Message.t) :
  (∀ m', m' ∈ l → Message.chatId m' ≠ chatId) →
  Message.chatId m = chatId →
  messages_of chatId (l ++ [m]) = [m].
Proof.
  intros Hl Hm. unfold messages_of. rewrite List.filter_app. cbn [List.filter].
  rewrite Hm, String.eqb_refl.
  assert (List.filter (λ m0, String.eqb (Message.chatId m0) chatId) l = []) as ->.
  { induction l as [|x l IH]; [done|]. cbn [List.filter].
    assert (String.eqb (Message.chatId x) chatId = false) as ->.
    { apply String.eqb_neq, Hl. by left. }
    apply IH. intros m' Hm'. apply Hl. by right. }
  reflexivity.
Qed.

(** X20.  After a CreateChat, a ListMessages by the same caller for the chat id
    of the answer returns exactly the first message: role USER, the content
    of the create, the caller as author.  (Collaborators healthy; no message
    row and no cache entry had that chat id before.) *)
Theorem first_message_is_listed (req req2 : Request) (w : World) (u : User)
    (o : list (string * JSON.json)) (message : string) :
  admitted postReqRateLimit req w →
  session_user req = Some u →
  faults req = no_faults →
  body req = Some (JObj o) →
  assoc "message" o = Some (JStr message) →
  message ≠ EmptyString →
  user_exists (id u) w = true →
  (∀ m, m ∈ db_messages w → Message.chatId m ≠ cuid (db_seq w)) →
  redis w !! messages_cacheKey (id u) (cuid (db_seq w)) = None →
  admitted getReqRateLimit req2 (snd (POST_chat req w)) →
  session_user req2 = Some u →
  faults req2 = no_faults →
  searchParams_chatId req2 = Some (cuid (db_seq w)) →
  fst (POST_chat req w) = ok_json (JObj [("chatId", JStr (cuid (db_seq w)))])
  ∧ fst (GET_messages req2 (snd (POST_chat req w)))
    = ok_json
        (JObj [("messages",
                messages_toJSON
                  [ {| Message.id := cuid (N.succ (db_seq w));
                       Message.content := message; Message.role := USER;
                       Message.createdAt := now req;
                       Message.chatId := cuid (db_seq w);
                       Message.userId := Some (id u) |} ]);
               ("cached", JBool false)]).
Proof.
  intros Hadm Hu Hf Hbody Hm Hne Huser Hfresh Hkey Hadm2 Hu2 Hf2 Hq2.
  destruct (POST_chat req w) as [resp w'] eqn:Hrun. cbn [fst snd] in *.
  run_route_in Hrun. admitted_in Hadm Hrun. rewrite Hu, Hbody in Hrun.
  cbv beta iota zeta in Hrun. rewrite Hm in Hrun. cbv beta iota zeta in Hrun.
  apply String.eqb_neq in Hne. rewrite Hne, Hf in Hrun.
  cbn [no_faults chat_create_fails redis_del_fails message_create_fails] in Hrun.
  change (user_exists (id u) (with_hits (limit_class postReqRateLimit)
            (<[ip_of req:=l]> (hits_of (limit_class postReqRateLimit) w)) w))
    with (user_exists (id u) w) in Hrun.
  rewrite Huser in Hrun. cbv beta iota zeta in Hrun.
  match type of Hrun with
  | context [chat_exists (Chat.id ?c) (with_redis ?r (with_db_chats (?l0 ++ [?c]) ?n ?w0))] =>
      change (chat_exists (Chat.id c) (with_redis r (with_db_chats (l0 ++ [c]) n w0)))
        with (chat_exists (Chat.id c) (with_db_chats (l0 ++ [c]) n w0)) in Hrun;
      rewrite (chat_exists_snoc c l0 n w0) in Hrun
  end.
  match type of Hrun with
  | context [user_exists (id u) ?w0] =>
      change (user_exists (id u) w0) with (user_exists (id u) w) in Hrun
  end.
  rewrite Huser in Hrun. cbn [andb] in Hrun. cbv beta iota zeta in Hrun.
  simplify_eq. split; [reflexivity|].
  rewrite (GET_messages_miss req2 _ u (cuid (db_seq w))); [|done..| |done|].
  - cbn [fst]. world_simpl. by rewrite messages_of_fresh_chat.
  - unfold cuid. rewrite app_cons. discriminate.
  - unfold cache_miss, cache_lookup. world_simpl.
    rewrite lookup_delete_ne, Hkey; [done|].
    apply chats_messages_cacheKey_ne.
Qed.

Lemma first_message_is_listed_witness :
  let req2 := Example.with_chatId "c2" (Example.request "u1" 2500) in
  (admitted postReqRateLimit Example.create_chat Example.world
   ∧ admitted getReqRateLimit req2 (snd (POST_chat Example.create_chat Example.world)))
  ∧ fst (GET_messages req2 (snd (POST_chat Example.create_chat Example.world)))
    = ok_json
        (JObj [("messages",
                messages_toJSON
                  [ {| Message.id := "c3"; Message.content := "hello";
                       Message.role := USER; Message.createdAt := 2000;
                       Message.chatId := "c2"; Message.userId := Some "u1" |} ]);
               ("cached", JBool false)]).
Proof.
  cbv zeta.
  assert (admitted postReqRateLimit Example.create_chat Example.world) as Hadm.
  { split; vm_compute; reflexivity. }
  assert (admitted getReqRateLimit (Example.with_chatId "c2" (Example.request "u1" 2500))
            (snd (POST_chat Example.create_chat Example.world))) as Hadm2.
  { split; vm_compute; reflexivity. }
  split; [by split|].
  refine (proj2 (first_message_is_listed Example.create_chat
                   (Example.with_chatId "c2" (Example.request "u1" 2500))
                   Example.world {| id := "u1" |} _ "hello"
                   Hadm eq_refl eq_refl eq_refl eq_refl _ eq_refl _ eq_refl
                   Hadm2 eq_refl eq_refl eq_refl)).
  - discriminate.
  - intros m Hm. apply list_elem_of_singleton in Hm as ->. discriminate.
Defined.

(** X21.  A body that is JSON but no object (an array, a string, a number,
    [null]) fails the schema of each POST: the caller gets the server fault,
    status 500, and nothing is stored, invalidated or started. *)
Theorem non_object_body_is_server_fault (op : WriteOp) (req : Request) (w : World)
    (u : User) (b : JSON.json) :
  admitted postReqRateLimit req w →
  session_user req = Some u →
  body req = Some b →
  is_object b = false →
  status_of (fst (run_write op req w)) = 500
  ∧ same_store w (snd (run_write op req w))
  ∧ redis (snd (run_write op req w)) = redis w
  ∧ detached (snd (run_write op req w)) = detached w.
Proof.
  intros Hadm Hu Hbody Hb.
  destruct (run_write op req w) as [resp w'] eqn:Hrun. cbn [fst snd].
  destruct op; cbn [run_write] in Hrun; run_route_in Hrun;
    admitted_in Hadm Hrun; rewrite Hu, Hbody in Hrun;
    cbv beta iota zeta in Hrun;
    destruct b; try discriminate Hb; cbv beta iota zeta in Hrun; simplify_eq;
    unfold same_store; world_simpl; split_and!; reflexivity.
Qed.

Lemma non_object_body_is_server_fault_witness :
  let req := Example.with_json (JArr [JStr "hello"]) (Example.request "u1" 2000) in
  (admitted postReqRateLimit req Example.world ∧ is_object (JArr [JStr "hello"]) = false)
  ∧ status_of (fst (run_write CreateChat req Example.world)) = 500
  ∧ db_chats (snd (run_write CreateChat req Example.world)) = [Example.chat0].
Proof.
  cbv zeta.
  assert (admitted postReqRateLimit
            (Example.with_json (JArr [JStr "hello"]) (Example.request "u1" 2000))
            Example.world) as Hadm.
  { split; vm_compute; reflexivity. }
  split; [by split|].
  destruct (non_object_body_is_server_fault CreateChat _ Example.world
              {| id := "u1" |} _ Hadm eq_refl eq_refl eq_refl)
    as (H1 & (_ & H2 & _) & _).
  split; [exact H1|exact H2].
Defined.
